(** * deck.gl extension points: data-filter extension, fullscreen widget,
      CARTO vector table source

    A shallow embedding of
      - modules/extensions/src/data-filter/data-filter-extension.ts
      - modules/widgets/src/fullscreen-widget.tsx
      - modules/carto/src/sources/vector-table-source.ts
    and the properties of them that the specification states.

    JavaScript objects used as maps are [gmap string _]; typed arrays are
    lists of [Z] with the wrap-around of their element type written out;
    methods that mutate [this] take the old state and return the new one,
    together with what they return or emit. *)

From Stdlib Require Import ZArith Lia.
From stdpp Require Import gmap strings list fin_maps pretty.

Local Open Scope Z_scope.
Local Set Warnings "-register-all,-clear-no-such-hyp".

(* ===================================================================== *)
(** * JavaScript values and property keys *)
(* ===================================================================== *)

Module Js.

(** The values a category accessor or a category list can hold.  Numbers are
    the integral ones (the keys and categories of the filter are counts and
    identifiers); [VArray] is a dense array. *)
Inductive Value : Type :=
  | VUndefined
  | VNull
  | VBoolean (b : bool)
  | VNumber (z : Z)
  | VString (s : string)
  | VArray (items : list Value).

(** [ToString]: an integral number prints as its decimal numeral, an array as
    its elements joined with commas, where [undefined] and [null] elements
    print as nothing (Array.prototype.join). *)
Fixpoint ToString (v : Value) : string :=
  match v with
  | VUndefined => "undefined"
  | VNull => "null"
  | VBoolean true => "true"
  | VBoolean false => "false"
  | VNumber z => pretty z
  | VString s => s
  | VArray items =>
      String.concat ","
        (List.map (fun x => match x with
                            | VUndefined | VNull => ""
                            | _ => ToString x
                            end) items)
  end.

(** A value used as a property name ([o[v]], [v in o]) is coerced to a string
    key. *)
Definition ToPropertyKey (v : Value) : string := ToString v.

(** The property names every plain object ([{}]) inherits from
    [Object.prototype]; [k in o] holds for them although [o] has no such own
    property. *)
Definition Object_prototype : list string :=
  [ "constructor"; "hasOwnProperty"; "isPrototypeOf"; "propertyIsEnumerable";
    "toLocaleString"; "toString"; "valueOf"; "__proto__";
    "__defineGetter__"; "__defineSetter__"; "__lookupGetter__";
    "__lookupSetter__" ].

Definition inherited (k : string) : bool := bool_decide (k ∈ Object_prototype).

(** What reading a property of the category map yields: a key the extension
    stored, a member of [Object.prototype], or [undefined]. *)
Inductive Property : Type :=
  | Key (k : nat)
  | Inherited (name : string)
  | Undefined.

(** [k in o] for a plain object with own properties [o]. *)
Definition has_property (o : gmap string nat) (k : string) : bool :=
  bool_decide (is_Some (o !! k)) || inherited k.

(** [o[k]] for a plain object with own properties [o]: own properties shadow
    inherited ones. *)
Definition get_property (o : gmap string nat) (k : string) : Property :=
  match o !! k with
  | Some n => Key n
  | None => if inherited k then Inherited k else Undefined
  end.

(** [for (const x of v)]: arrays yield their elements, strings their
    characters (one per character: strings are ASCII here); anything else is
    not iterable (TypeError). *)
Definition iterate (v : Value) : option (list Value) :=
  match v with
  | VArray items => Some items
  | VString s => Some (List.map (fun a => VString (String a EmptyString)) (String.list_ascii_of_string s))
  | _ => None
  end.

End Js.

Import Js.

(* ===================================================================== *)
(** * DataFilterExtension: options and constructor *)
(* ===================================================================== *)

(** A [number] as the option check sees it.  Used as an index into
    [DATA_TYPE_FROM_SIZE] it becomes its canonical numeral, so what is kept is
    what tells the numerals apart: the value of an integral number, and the
    kinds whose numeral is never a plain digit. *)
Inductive number : Type :=
  | Int (z : Z)               (* an integral value, -0 included as [Int 0] *)
  | NonInt                    (* a finite value with a fractional part *)
  | NaN
  | Infinity (negative : bool).

(** [n === z] for an integral literal [z]. *)
Definition number_is (n : number) (z : Z) : bool :=
  match n with
  | Int x => x =? z
  | _ => false
  end.

(** [const DATA_TYPE_FROM_SIZE = {1: 'float', 2: 'vec2', 3: 'vec3', 4: 'vec4'}]
    indexed by a number.  [Object.prototype] has no property named by a
    numeral, so the lookup is [undefined] (here [None]) for every other
    number. *)
Definition DATA_TYPE_FROM_SIZE (n : number) : option string :=
  match n with
  | Int 1 => Some "float"
  | Int 2 => Some "vec2"
  | Int 3 => Some "vec3"
  | Int 4 => Some "vec4"
  | _ => None
  end.

(** Truthiness of a lookup in [DATA_TYPE_FROM_SIZE]: a string is truthy unless
    empty, [undefined] is falsy. *)
Definition truthy_type (t : option string) : bool :=
  match t with
  | Some s => negb (String.eqb s "")
  | None => false
  end.

Record DataFilterExtensionOptions : Type := {
  categorySize : number;
  filterSize : number;
  fp64 : bool;
  countItems : bool
}.

(** [Partial<DataFilterExtensionOptions>]: every field may be left out. *)
Record PartialOptions : Type := {
  categorySize_opt : option number;
  filterSize_opt : option number;
  fp64_opt : option bool;
  countItems_opt : option bool
}.

(** The extension object: the base class [LayerExtension] holds the options
    as [opts], where [getShaders], [initializeState] and [draw] read them. *)
Record Extension : Type := { opts : DataFilterExtensionOptions }.

(** Modelled from the spec: the constructor of the base class [LayerExtension]
    (@deck.gl/core, not among the sources).  It keeps the options object it
    is given: the filter configuration is "immutable-per-instance options ...
    validated once at construction". *)
Definition LayerExtension_constructor (o : DataFilterExtensionOptions) : Extension :=
  {| opts := o |}.

(** [new Error(message)] thrown by a constructor or method. *)
Inductive Thrown : Type := Error (message : string) | TypeError.

(** [constructor({categorySize = 1, filterSize = 1, fp64 = false,
    countItems = false} = {})].  The argument itself may be left out. *)
Definition DataFilterExtension_constructor (arg : option PartialOptions)
  : Thrown + Extension :=
  let a := default {| categorySize_opt := None; filterSize_opt := None;
                      fp64_opt := None; countItems_opt := None |} arg in
  let categorySize := default (Int 1) (categorySize_opt a) in
  let filterSize := default (Int 1) (filterSize_opt a) in
  let fp64 := default false (fp64_opt a) in
  let countItems := default false (countItems_opt a) in
  if negb (truthy_type (DATA_TYPE_FROM_SIZE categorySize)) then
    inl (Error "categorySize out of range")
  else if negb (truthy_type (DATA_TYPE_FROM_SIZE filterSize)) then
    inl (Error "filterSize out of range")
  else
    inr (LayerExtension_constructor
           {| categorySize := categorySize; filterSize := filterSize;
              fp64 := fp64; countItems := countItems |}).

(** The supported channel counts. *)
Definition channel_count (n : number) : Prop :=
  n = Int 1 \/ n = Int 2 \/ n = Int 3 \/ n = Int 4.

(* ===================================================================== *)
(** * DataFilterExtension: the layer state and the category map *)
(* ===================================================================== *)

(** [this.state] of the layer the extension is attached to, as far as [draw]
    and [_getCategoryKey] decide on it.  [filterModel] is the handle of the
    counting model; the framebuffer it draws to ([filterFBO], set and
    released together with it) is only ever handed to the host's GPU calls
    and is left to them. *)
Record LayerState : Type := {
  categoryMap : option (gmap string nat);
  filterNeedsUpdate : bool;
  filterModel : option nat
}.

(** Modelled from the spec: [this.setState({categoryMap: ...})] of the host
    layer (@deck.gl/core, not among the sources).  The category map is
    "built lazily": the state gets the map and keeps its other fields. *)
Definition set_categoryMap (st : LayerState) (m : gmap string nat) : LayerState :=
  {| categoryMap := Some m;
     filterNeedsUpdate := filterNeedsUpdate st;
     filterModel := filterModel st |}.

(** [this.state.filterNeedsUpdate = b] *)
Definition set_filterNeedsUpdate (st : LayerState) (b : bool) : LayerState :=
  {| categoryMap := categoryMap st;
     filterNeedsUpdate := b;
     filterModel := filterModel st |}.

(** A layer that has not used the extension yet. *)
Definition initial_state : LayerState :=
  {| categoryMap := None; filterNeedsUpdate := false; filterModel := None |}.

(** [_getCategoryKey(category)]:
<<
    if (!this.state.categoryMap) { this.setState({categoryMap: {}}); }
    const {categoryMap} = this.state;
    if (!(category in categoryMap)) {
      categoryMap[category] = Object.keys(categoryMap).length;
    }
    return categoryMap[category];
>>
    The map object is created once and mutated in place; the state returned
    holds it. *)
Definition _getCategoryKey (st : LayerState) (category : Value)
  : LayerState * Property :=
  let categoryMap := default ∅ (categoryMap st) in
  let k := ToPropertyKey category in
  let categoryMap' :=
    if has_property categoryMap k then categoryMap
    else <[k := size categoryMap]> categoryMap in
  (set_categoryMap st categoryMap', get_property categoryMap' k).

(** A sequence of calls on one layer, in order, with what each returned. *)
Fixpoint getCategoryKeys (st : LayerState) (categories : list Value)
  : LayerState * list Property :=
  match categories with
  | [] => (st, [])
  | c :: rest =>
      let '(st1, r) := _getCategoryKey st c in
      let '(st2, rs) := getCategoryKeys st1 rest in
      (st2, r :: rs)
  end.

(* ===================================================================== *)
(** * DataFilterExtension: draw *)
(* ===================================================================== *)

(** The props of the layer that [draw] reads: the callback, if one is set
    (named by a handle), and the category list. *)
Record LayerProps : Type := {
  onFilteredItemsChange : option nat;
  filterCategoryList : Value
}.

(** A call [onFilteredItemsChange({id, count})]. *)
Record FilteredItemsEvent : Type := {
  ev_callback : nat;
  ev_id : string;
  ev_count : Z
}.

(** The counting loop over the pixels read back from the off-screen buffer:
<<
    let count = 0;
    for (let i = 0; i < color.length; i++) { count += color[i]; }
>>
    The buffer holds whole numbers (one unit per covered pixel). *)
Definition count_pixels (color : list Z) : Z :=
  fold_left (fun count x => count + x) color 0.

(** [categorySize === 1 ? 128 : categorySize === 2 ? 64 : 32] *)
Definition maxCategories (categorySize : number) : Z :=
  if number_is categorySize 1 then 128
  else if number_is categorySize 2 then 64
  else 32.

(** [new Uint32Array([0, 0, 0, 0])] *)
Definition Uint32Array_zero4 : list Z := [0; 0; 0; 0].

(** [a[channel] += v] on a [Uint32Array]: the sum is stored modulo 2^32, and
    a store outside the array does nothing. *)
Definition Uint32Array_add (a : list Z) (channel : Z) (v : Z) : list Z :=
  if channel <? 0 then a
  else match a !! Z.to_nat channel with
       | Some old => <[Z.to_nat channel := (old + v) mod 2 ^ 32]> a
       | None => a
       end.

(** The word a key of channel group [c] goes to:
    [c * (maxCategories / 32) + Math.floor(key / 32)]. *)
Definition channel_of (maxCategories : Z) (c : nat) (key : nat) : Z :=
  Z.of_nat c * (maxCategories / 32) + Z.of_nat key / 32.

(** The body of the inner loop of [draw]:
<<
    const key = extension._getCategoryKey.bind(this)(category);
    const channel = c * (maxCategories / 32) + Math.floor(key / 32);
    categoryBitMask[channel] += Math.pow(2, key % 32);
>>
    When the key is not a number (a member of [Object.prototype]), [channel]
    is [NaN] and no element is written. *)
Definition addCategory (maxCategories : Z) (c : nat)
    (acc : LayerState * list Z) (category : Value) : LayerState * list Z :=
  let '(st, categoryBitMask) := acc in
  let '(st', key) := _getCategoryKey st category in
  match key with
  | Key k =>
      (st', Uint32Array_add categoryBitMask (channel_of maxCategories c k)
              (2 ^ (Z.of_nat k mod 32)))
  | _ => (st', categoryBitMask)
  end.

(** The outer loop, from group [c] on.  A group that cannot be iterated
    throws; the state reached so far stays. *)
Fixpoint addCategoryFilters (maxCategories : Z) (c : nat)
    (st : LayerState) (categoryBitMask : list Z) (categoryFilters : list Value)
  : LayerState * (Thrown + list Z) :=
  match categoryFilters with
  | [] => (st, inr categoryBitMask)
  | categoryFilter :: rest =>
      match iterate categoryFilter with
      | None => (st, inl TypeError)
      | Some categories =>
          let '(st', mask') :=
            fold_left (addCategory maxCategories c) categories (st, categoryBitMask) in
          addCategoryFilters maxCategories (S c) st' mask' rest
      end
  end.

(** What [v.length] and [v[c]] give the outer loop when the list of groups is
    the prop itself: the elements of an array, the characters of a string,
    nothing for a number or boolean ([length] is [undefined]); [null] and
    [undefined] have no properties (TypeError). *)
Definition indexed (v : Value) : option (list Value) :=
  match v with
  | VArray _ | VString _ => iterate v
  | VNumber _ | VBoolean _ => Some []
  | VNull | VUndefined => None
  end.

(** The second half of [draw]: the category bit mask, 128 bits over four
    32-bit words.
<<
    const categoryBitMask = new Uint32Array([0, 0, 0, 0]);
    const categoryFilters = categorySize === 1 ? [filterCategoryList] : filterCategoryList;
    const maxCategories = categorySize === 1 ? 128 : categorySize === 2 ? 64 : 32;
    for (let c = 0; c < categoryFilters.length; c++) { ... }
>> *)
Definition categoryBitMask (categorySize : number) (st : LayerState)
    (filterCategoryList : Value) : LayerState * (Thrown + list Z) :=
  let categoryFilters :=
    if number_is categorySize 1 then Some [filterCategoryList]
    else indexed filterCategoryList in
  match categoryFilters with
  | None => (st, inl TypeError)
  | Some groups =>
      addCategoryFilters (maxCategories categorySize) 0 st Uint32Array_zero4 groups
  end.

(** What a call of [draw] leaves behind: the layer state, the callbacks made,
    and [params.uniforms.filter_categoryBitMask], unless the call threw. *)
Record Drawn : Type := {
  drawn_state : LayerState;
  drawn_events : list FilteredItemsEvent;
  filter_categoryBitMask : Thrown + list Z
}.

(** [draw(params, extension)] on the layer with the given id, state and
    props.  The off-screen pass (clearing [filterFBO], drawing [filterModel]
    into it) is made of calls to the host, which are taken to succeed;
    [color] is what [readPixelsToArray(filterFBO)] returns after it. *)
Definition draw (id : string) (st : LayerState) (props : LayerProps)
    (extension : Extension) (color : list Z) : Drawn :=
  let '(st1, events) :=
    match filterNeedsUpdate st, onFilteredItemsChange props, filterModel st with
    | true, Some callback, Some _ =>
        (set_filterNeedsUpdate st false,
         [ {| ev_callback := callback; ev_id := id; ev_count := count_pixels color |} ])
    | _, _, _ => (st, [])
    end in
  let '(st2, mask) :=
    categoryBitMask (categorySize (opts extension)) st1 (filterCategoryList props) in
  {| drawn_state := st2; drawn_events := events; filter_categoryBitMask := mask |}.

(* ===================================================================== *)
(** * DataFilterExtension: shaders, attributes and the layer lifecycle *)
(* ===================================================================== *)

(** The two shader modules of [./shader-module]. *)
Inductive ShaderModule : Type := shaderModule | shaderModule64.

(** The [defines] of [getShaders]; a type that [DATA_TYPE_FROM_SIZE] does
    not have is [undefined] ([None]). *)
Record ShaderDefines : Type := {
  DATACATEGORY_TYPE : option string;
  DATACATEGORY_CHANNELS : number;
  DATAFILTER_TYPE : option string;
  DATAFILTER_DOUBLE : bool
}.

Record Shaders : Type := {
  modules : list ShaderModule;
  defines : ShaderDefines
}.

(** [getShaders(extension)]:
<<
    const {categorySize, filterSize, fp64} = extension.opts;
    return {
      modules: [fp64 ? shaderModule64 : shaderModule],
      defines: {
        DATACATEGORY_TYPE: DATA_TYPE_FROM_SIZE[categorySize],
        DATACATEGORY_CHANNELS: categorySize,
        DATAFILTER_TYPE: DATA_TYPE_FROM_SIZE[filterSize],
        DATAFILTER_DOUBLE: Boolean(fp64)
      }
    };
>> *)
Definition getShaders (extension : Extension) : Shaders :=
  let o := opts extension in
  {| modules := [if fp64 o then shaderModule64 else shaderModule];
     defines := {| DATACATEGORY_TYPE := DATA_TYPE_FROM_SIZE (categorySize o);
                   DATACATEGORY_CHANNELS := categorySize o;
                   DATAFILTER_TYPE := DATA_TYPE_FROM_SIZE (filterSize o);
                   DATAFILTER_DOUBLE := fp64 o |} |}.

(** A data object as the index accessor sees it: it may carry the index of
    the object it was made from, as [object.__source.index]. *)
Record Source : Type := { index : Z }.
Record DataObject : Type := { __source : option Source }.

(** The accessor of the [filterIndices] attribute:
<<
    (object, {index}) => {
      const i = object && object.__source ? object.__source.index : index;
      return useFloatTarget ? (i + 1) % 255 : [(i + 1) % 255, Math.floor(i / 255) % 255];
    }
>>
    The value is given as the list of its components (one or two).  [%] is
    the remainder that takes the sign of the dividend. *)
Definition filterIndices_accessor (useFloatTarget : bool)
    (object : option DataObject) (index_ : Z) : list Z :=
  let i :=
    match object with
    | Some o =>
        match __source o with
        | Some s => index s
        | None => index_
        end
    | None => index_
    end in
  if useFloatTarget then [Z.rem (i + 1) 255]
  else [Z.rem (i + 1) 255; Z.rem (i / 255) 255].

(** The [GL] constants the attributes name. *)
Inductive GLType : Type := GL_DOUBLE | GL_FLOAT | GL_UNSIGNED_BYTE.

(** The accessor of an attribute: the name of a prop, or the index accessor
    above. *)
Inductive AttributeAccessor : Type :=
  | accessor_prop (name : string)
  | accessor_filterIndices (useFloatTarget : bool).

(** The transform of the category attribute: [extension._getCategoryKey]
    itself, or [d => d.map(x => extension._getCategoryKey.bind(this)(x))]. *)
Inductive AttributeTransform : Type :=
  | transform_getCategoryKey
  | transform_map_getCategoryKey.

Record ShaderAttribute : Type := {
  shader_name : string;
  shader_divisor : option Z;
  shader_vertexOffset : option Z
}.

(** One entry of the object given to [attributeManager.add].  A setting the
    entry leaves out is [None], or [false] for [normalized]. *)
Record Attribute : Type := {
  attribute_name : string;
  attribute_size : number;
  attribute_vertexOffset : option Z;
  attribute_type : GLType;
  attribute_normalized : bool;
  attribute_accessor : AttributeAccessor;
  attribute_transform : option AttributeTransform;
  attribute_shaderAttributes : list ShaderAttribute
}.

(** The first [attributeManager.add] of [initializeState]. *)
Definition filter_attributes (o : DataFilterExtensionOptions) : list Attribute :=
  [ {| attribute_name := "filterValues";
       attribute_size := filterSize o;
       attribute_vertexOffset := None;
       attribute_type := if fp64 o then GL_DOUBLE else GL_FLOAT;
       attribute_normalized := false;
       attribute_accessor := accessor_prop "getFilterValue";
       attribute_transform := None;
       attribute_shaderAttributes :=
         [ {| shader_name := "filterValues"; shader_divisor := Some 0;
              shader_vertexOffset := None |};
           {| shader_name := "instanceFilterValues"; shader_divisor := Some 1;
              shader_vertexOffset := None |} ] |};
    {| attribute_name := "filterCategories";
       attribute_size := categorySize o;
       attribute_vertexOffset := None;
       attribute_type := GL_FLOAT;
       attribute_normalized := false;
       attribute_accessor := accessor_prop "getFilterCategory";
       attribute_transform :=
         Some (if number_is (categorySize o) 1 then transform_getCategoryKey
               else transform_map_getCategoryKey);
       attribute_shaderAttributes :=
         [ {| shader_name := "filterCategories"; shader_divisor := Some 0;
              shader_vertexOffset := None |};
           {| shader_name := "instanceFilterCategories"; shader_divisor := Some 1;
              shader_vertexOffset := None |} ] |} ].

(** The second [attributeManager.add], made when items are counted. *)
Definition filterIndices_attribute (useFloatTarget : bool) : Attribute :=
  {| attribute_name := "filterIndices";
     attribute_size := if useFloatTarget then Int 1 else Int 2;
     attribute_vertexOffset := Some 1;
     attribute_type := GL_UNSIGNED_BYTE;
     attribute_normalized := true;
     attribute_accessor := accessor_filterIndices useFloatTarget;
     attribute_transform := None;
     attribute_shaderAttributes :=
       [ {| shader_name := "filterPrevIndices"; shader_divisor := None;
            shader_vertexOffset := Some 0 |};
         {| shader_name := "filterIndices"; shader_divisor := None;
            shader_vertexOffset := Some 1 |} ] |}.

(** [this.setState({filterFBO, filterModel})], as far as the state is
    modelled. *)
Definition set_filterModel (st : LayerState) (model : nat) : LayerState :=
  {| categoryMap := categoryMap st;
     filterNeedsUpdate := filterNeedsUpdate st;
     filterModel := Some model |}.

(** [initializeState(context, extension)]: the attributes added to the
    attribute manager of the layer, if it has one, and the state.
    [useFloatTarget] is what [aggregator.supportsFloatTarget(gl)] answers and
    [model] what [aggregator.getModel] returns. *)
Definition initializeState (st : LayerState) (attributeManager : bool)
    (extension : Extension) (useFloatTarget : bool) (model : nat)
  : list Attribute * LayerState :=
  let added := if attributeManager then filter_attributes (opts extension) else [] in
  if attributeManager && countItems (opts extension) then
    (added ++ [filterIndices_attribute useFloatTarget], set_filterModel st model)
  else (added, st).

(** What [updateState] asks about the update: whether the two attributes
    need an update, and whether each of four props is another value than
    before ([!==]). *)
Record Changes : Type := {
  filterValues_needsUpdate : bool;
  filterCategories_needsUpdate : bool;
  filterEnabled_changed : bool;
  filterRange_changed : bool;
  filterSoftRange_changed : bool;
  filterCategoryList_changed : bool
}.

(** [updateState({props, oldProps})]:
<<
    if (this.state.filterModel) {
      const filterNeedsUpdate = ... || ... ;
      if (filterNeedsUpdate) { this.setState({filterNeedsUpdate}); }
    }
>> *)
Definition updateState (st : LayerState) (changes : Changes) : LayerState :=
  match filterModel st with
  | Some _ =>
      let filterNeedsUpdate :=
        filterValues_needsUpdate changes
        || filterCategories_needsUpdate changes
        || filterEnabled_changed changes
        || filterRange_changed changes
        || filterSoftRange_changed changes
        || filterCategoryList_changed changes in
      if filterNeedsUpdate then set_filterNeedsUpdate st true else st
  | None => st
  end.

(** A call the host makes on an initialized layer. *)
Inductive LayerCall : Type :=
  | call_updateState (changes : Changes)
  | call_draw (props : LayerProps) (color : list Z).

(** A sequence of such calls on the layer with the given id, with the
    callbacks made along the way. *)
Fixpoint lifecycle (id : string) (extension : Extension) (st : LayerState)
    (calls : list LayerCall) : LayerState * list FilteredItemsEvent :=
  match calls with
  | [] => (st, [])
  | call_updateState changes :: rest =>
      lifecycle id extension (updateState st changes) rest
  | call_draw props color :: rest =>
      let d := draw id st props extension color in
      let '(st', events) := lifecycle id extension (drawn_state d) rest in
      (st', drawn_events d ++ events)
  end.

(* ===================================================================== *)
(** * FullscreenWidget *)
(* ===================================================================== *)

Module FullscreenWidget.

(** Host objects, named by handles.  The widget only holds references. *)
Record Element : Type := { element_handle : nat }.
Record Canvas : Type := { parentElement : option Element }.
Record Deck : Type := { canvas : option Canvas }.

(** The part of [document] the widget reads. *)
Record Document : Type := { fullscreenElement : option Element }.

(** [FullscreenWidgetProps]; [viewId] absent or [null] is [None]. *)
Record FullscreenWidgetProps : Type := {
  props_id : string;
  props_viewId : option string;
  props_placement : option string;
  props_label : option string
}.

Record Widget : Type := {
  id : string;
  props : FullscreenWidgetProps;
  placement : string;
  viewId : option string;
  isFullscreen : bool;
  deck : option Deck;
  element : option Element
}.

(** [s || d] on an optional string: absent and empty are falsy. *)
Definition or_string (s : option string) (d : string) : string :=
  match s with
  | Some x => if String.eqb x "" then d else x
  | None => d
  end.

(** [s || null] *)
Definition or_null (s : option string) : option string :=
  match s with
  | Some x => if String.eqb x "" then None else Some x
  | None => None
  end.

(** [constructor(props)]; the label default is written into [props], which
    the widget then keeps. *)
Definition constructor (p : FullscreenWidgetProps) : Widget :=
  {| id := or_string (Some (props_id p)) "fullscreen";
     viewId := or_null (props_viewId p);
     placement := or_string (props_placement p) "top-left";
     props := {| props_id := props_id p;
                 props_viewId := props_viewId p;
                 props_placement := props_placement p;
                 props_label := Some (or_string (props_label p) "Toggle Fullscreen") |};
     isFullscreen := false;
     deck := None;
     element := None |}.

(** [onAdd({deck})]: [widget] is the [div] that [document.createElement]
    made; it is kept and returned. *)
Definition onAdd (w : Widget) (d : Deck) (widget : Element) : Widget * Element :=
  ({| id := id w; props := props w; placement := placement w; viewId := viewId w;
      isFullscreen := isFullscreen w;
      deck := Some d;
      element := Some widget |}, widget).

(** [onRemove() { this.deck = undefined; this.element = undefined; }] *)
Definition onRemove (w : Widget) : Widget :=
  {| id := id w; props := props w; placement := placement w; viewId := viewId w;
     isFullscreen := isFullscreen w;
     deck := None;
     element := None |}.

(** The calls a click makes: the widget's own two methods, and the platform
    calls those make. *)
Inductive Call : Type :=
  | this_requestFullscreen
  | this_exitFullscreen
  | Element_requestFullscreen (target : Element) (navigationUI : string)
  | document_exitFullscreen.

#[global] Instance Element_eq_dec : EqDecision Element.
Proof. solve_decision. Defined.

#[global] Instance Call_eq_dec : EqDecision Call.
Proof. solve_decision. Defined.

(** An [async] method up to its [await]: the calls made so far, and the value
    [isFullscreen] is set to once the awaited promise is fulfilled. *)
Record Pending : Type := {
  calls : list Call;
  isFullscreen_then : bool
}.

(** [this.deck?.canvas?.parentElement] *)
Definition canvas_parent (w : Widget) : option Element :=
  match deck w with
  | Some d =>
      match canvas d with
      | Some c => parentElement c
      | None => None
      end
  | None => None
  end.

(** [await this.deck?.canvas?.parentElement?.requestFullscreen({navigationUI: 'hide'});
     this.isFullscreen = true;] *)
Definition requestFullscreen (w : Widget) : Pending :=
  {| calls :=
       match canvas_parent w with
       | Some e => [Element_requestFullscreen e "hide"]
       | None => []
       end;
     isFullscreen_then := true |}.

(** [await document.exitFullscreen(); this.isFullscreen = false;] *)
Definition exitFullscreen (w : Widget) : Pending :=
  {| calls := [document_exitFullscreen]; isFullscreen_then := false |}.

(** [handleClick()]: which method is called decides on
    [document.fullscreenElement]; the promise it returns is dropped. *)
Definition handleClick (doc : Document) (w : Widget) : Pending :=
  match fullscreenElement doc with
  | None =>
      let p := requestFullscreen w in
      {| calls := this_requestFullscreen :: calls p;
         isFullscreen_then := isFullscreen_then p |}
  | Some _ =>
      let p := exitFullscreen w in
      {| calls := this_exitFullscreen :: calls p;
         isFullscreen_then := isFullscreen_then p |}
  end.

(** The rest of the [async] method, run when the awaited promise settles;
    a rejection leaves the widget as it was. *)
Definition settle (w : Widget) (p : Pending) (fulfilled : bool) : Widget :=
  if fulfilled then
    {| id := id w; props := props w; placement := placement w; viewId := viewId w;
       isFullscreen := isFullscreen_then p;
       deck := deck w;
       element := element w |}
  else w.

(** How often a call occurs among those made. *)
Definition times (c : Call) (l : list Call) : nat :=
  length (filter (fun x => x = c) l).

(** Whether a call is a platform request for fullscreen, on any element. *)
Definition is_platform_request (c : Call) : bool :=
  match c with
  | Element_requestFullscreen _ _ => true
  | _ => false
  end.

(** The argument of [setProps] as [Object.assign] reads it: [id] is there;
    each other key may be missing ([None]), or there with a value, which may
    be [undefined] or [null] ([Some None]). *)
Record AssignedProps : Type := {
  assigned_id : string;
  assigned_viewId : option (option string);
  assigned_placement : option (option string);
  assigned_label : option (option string)
}.

(** [setProps(props) { Object.assign(this.props, props); }] *)
Definition setProps (w : Widget) (p : AssignedProps) : Widget :=
  {| id := id w;
     props := {| props_id := assigned_id p;
                 props_viewId := default (props_viewId (props w)) (assigned_viewId p);
                 props_placement := default (props_placement (props w)) (assigned_placement p);
                 props_label := default (props_label (props w)) (assigned_label p) |};
     placement := placement w; viewId := viewId w;
     isFullscreen := isFullscreen w;
     deck := deck w;
     element := element w |}.

End FullscreenWidget.

(* ===================================================================== *)
(** * CartoVectorTableSource *)
(* ===================================================================== *)

Module Carto.

Inductive Format : Type := tilejson | geojson.

Section Source.

(** What [./common], [../api/maps-api-common] and [./base-source] declare
    is taken as given: the options every source shares, the type of map
    kinds with its member [MAP_TYPES.TABLE], and the shared fetch. *)
Variable BaseOptions : Type.
Variable MapType : Type.
Variable MAP_TYPES_TABLE : MapType.
Variable Result : Type.

(** [CartoVectorTableSourceOptions]: the shared options and those of a
    table source. *)
Record CartoVectorTableSourceOptions : Type := {
  base : BaseOptions;
  tableName : string;
  columns : option (list string);
  spatialDataColumn : option string
}.

Variable CartoBaseSource :
  MapType -> CartoVectorTableSourceOptions -> gmap string string ->
  option Format -> Result.

(** The url parameters built from the options:
<<
  const urlParameters: UrlParameters = {name: tableName};
  if (columns) { urlParameters.columns = columns.join(','); }
  if (spatialDataColumn) { urlParameters.geo_column = spatialDataColumn; }
>>
    An array is truthy even when empty; a string is truthy unless empty. *)
Definition urlParameters (options : CartoVectorTableSourceOptions)
  : gmap string string :=
  let p0 : gmap string string := {[ "name" := tableName options ]} in
  let p1 :=
    match columns options with
    | Some cols => <["columns" := String.concat "," cols]> p0
    | None => p0
    end in
  match spatialDataColumn options with
  | Some g => if String.eqb g "" then p1 else <["geo_column" := g]> p1
  | None => p1
  end.

(** [return CartoBaseSource<UrlParameters>(MAP_TYPES.TABLE, options,
    urlParameters, format);] *)
Definition CartoVectorTableSource (options : CartoVectorTableSourceOptions)
    (format : option Format) : Result :=
  CartoBaseSource MAP_TYPES_TABLE options (urlParameters options) format.

End Source.

Arguments tableName {BaseOptions} _.
Arguments columns {BaseOptions} _.
Arguments spatialDataColumn {BaseOptions} _.
Arguments base {BaseOptions} _.
Arguments urlParameters {BaseOptions} _.
Arguments Build_CartoVectorTableSourceOptions {BaseOptions} _ _ _ _.

End Carto.

(* ===================================================================== *)
(** * Notions the properties are stated with *)
(* ===================================================================== *)

(** Where a key first occurs in a list of keys (its length if nowhere). *)
Fixpoint first_index (k : string) (ks : list string) : nat :=
  match ks with
  | [] => 0
  | x :: rest => if decide (x = k) then 0 else S (first_index k rest)
  end.

(** How many distinct keys were seen before [k] was first seen: for the n-th
    distinct key this is n-1. *)
Definition ordinal (ks : list string) (k : string) : nat :=
  length (remove_dups (take (first_index k ks) ks)).

(** The own properties of the category map of a state. *)
Definition own_keys (st : LayerState) : gmap string nat :=
  default ∅ (categoryMap st).

(** The map after the keys [p] were asked for, none of them inherited: each
    has its ordinal, and nothing else is in the map. *)
Definition tracks (m : gmap string nat) (p : list string) : Prop :=
  (forall k, m !! k = if decide (k ∈ p) then Some (ordinal p k) else None)
  /\ size m = length (remove_dups p).

(** Categories 0, 1, ..., n-1 as numbers. *)
Definition numbered (n : nat) : list Value := VNumber <$> seqZ 0 (Z.of_nat n).

(** The sum of a list of whole numbers. *)
Definition total (l : list Z) : Z := foldr Z.add 0 l.

(** The groups of categories [draw] goes through, group by group, or [None]
    when the list or one of its groups cannot be gone through. *)
Definition category_groups (categorySize : number) (filterCategoryList : Value)
  : option (list (list Value)) :=
  groups ← (if number_is categorySize 1 then Some [filterCategoryList]
            else indexed filterCategoryList);
  mapM iterate groups.

(** The keys the categories of the groups get, each with the index of its
    group, in the order [draw] asks for them, from group [c] on. *)
Fixpoint group_keys (c : nat) (st : LayerState) (groups : list (list Value))
  : list (nat * Property) :=
  match groups with
  | [] => []
  | g :: rest =>
      let '(st', keys) := getCategoryKeys st g in
      (pair c <$> keys) ++ group_keys (S c) st' rest
  end.

(** What one occurrence of a key adds to word [w]. *)
Definition contribution (maxCategories : Z) (w : Z) (occurrence : nat * Property) : Z :=
  match occurrence with
  | (c, Key k) =>
      if channel_of maxCategories c k =? w then 2 ^ (Z.of_nat k mod 32) else 0
  | _ => 0
  end.

(** The sum over all occurrences, duplicates included. *)
Definition sum_contributions (maxCategories : Z) (w : Z)
    (occurrences : list (nat * Property)) : Z :=
  total (contribution maxCategories w <$> occurrences).

(** Four 32-bit words, word [w] holding [f w] reduced modulo 2^32. *)
Definition words (f : Z -> Z) : list Z :=
  (fun w => f w mod 2 ^ 32) <$> [0; 1; 2; 3].

(** A map whose keys are dense and tell categories apart: every stored key
    is below the number of entries, and no two entries share one. *)
Definition dense (m : gmap string nat) : Prop :=
  (forall k n, m !! k = Some n -> (n < size m)%nat)
  /\ (forall k1 k2 n, m !! k1 = Some n -> m !! k2 = Some n -> k1 = k2).

(** What the categories of the groups read from a map, each with the index
    of its group, from group [c] on. *)
Fixpoint group_reads (c : nat) (m : gmap string nat) (groups : list (list Value))
  : list (nat * Property) :=
  match groups with
  | [] => []
  | g :: rest =>
      ((fun v => (c, get_property m (ToPropertyKey v))) <$> g)
      ++ group_reads (S c) m rest
  end.

(** The bits the occurrences of keys stand for: word and bit in the word. *)
Definition bit_positions (maxCategories : Z) (occurrences : list (nat * Property))
  : list (Z * Z) :=
  omap (fun o => match o with
                 | (c, Key k) => Some (channel_of maxCategories c k, Z.of_nat k mod 32)
                 | _ => None
                 end) occurrences.

(** A list of groups in which only group [c] has a member, [v]. *)
Definition only_in_group (c : nat) (v : Value) : list (list Value) :=
  replicate c [] ++ [[v]].

(* ===================================================================== *)
(** * The constructor of DataFilterExtension *)
(* ===================================================================== *)

Lemma channel_count_truthy (n : number) :
  channel_count n <-> truthy_type (DATA_TYPE_FROM_SIZE n) = true.
Proof.
  unfold channel_count. split.
  - intros [-> | [-> | [-> | ->]]]; reflexivity.
  - destruct n as [z | | | b]; try discriminate.
    destruct z as [|p|p]; try discriminate.
    destruct p as [[[]|[]|]|[[]|[]|]|]; try discriminate; intros _; tauto.
Qed.

Example constructor_defaults :
  DataFilterExtension_constructor None
  = inr {| opts := {| categorySize := Int 1; filterSize := Int 1;
                      fp64 := false; countItems := false |} |}.
Proof. reflexivity. Qed.

Example constructor_rejects_five :
  DataFilterExtension_constructor
    (Some {| categorySize_opt := Some (Int 5); filterSize_opt := Some (Int 7);
             fp64_opt := None; countItems_opt := None |})
  = inl (Error "categorySize out of range").
Proof. reflexivity. Qed.

Example constructor_rejects_fraction :
  DataFilterExtension_constructor
    (Some {| categorySize_opt := Some (Int 2); filterSize_opt := Some NonInt;
             fp64_opt := Some true; countItems_opt := None |})
  = inl (Error "filterSize out of range").
Proof. reflexivity. Qed.

(** C1.  With [categorySize] and [filterSize] read with their default 1 when
    left out: if both are among 1, 2, 3, 4 the constructor returns the
    extension holding exactly these options (and the two flags, [false] when
    left out); if [categorySize] is any other number it throws
    'categorySize out of range'; otherwise, if [filterSize] is any other number
    it throws 'filterSize out of range'.  A throw yields no object. *)
Theorem constructor_validates_sizes (arg : option PartialOptions) :
  let a := default (Build_PartialOptions None None None None) arg in
  let cs := default (Int 1) (categorySize_opt a) in
  let fs := default (Int 1) (filterSize_opt a) in
  (channel_count cs /\ channel_count fs ->
     DataFilterExtension_constructor arg
     = inr {| opts := {| categorySize := cs; filterSize := fs;
                         fp64 := default false (fp64_opt a);
                         countItems := default false (countItems_opt a) |} |})
  /\ (~ channel_count cs ->
        DataFilterExtension_constructor arg = inl (Error "categorySize out of range"))
  /\ (channel_count cs /\ ~ channel_count fs ->
        DataFilterExtension_constructor arg = inl (Error "filterSize out of range")).
Proof.
  intros a cs fs. unfold DataFilterExtension_constructor.
  fold a. fold cs. fold fs.
  rewrite !channel_count_truthy.
  destruct (truthy_type (DATA_TYPE_FROM_SIZE cs)), (truthy_type (DATA_TYPE_FROM_SIZE fs));
    simpl; repeat split; intros; try reflexivity; intuition congruence.
Qed.

(** The constructor at concrete options: two channels, four filter values. *)
Lemma constructor_validates_sizes_witness :
  DataFilterExtension_constructor
    (Some {| categorySize_opt := Some (Int 2); filterSize_opt := Some (Int 4);
             fp64_opt := Some true; countItems_opt := None |})
  = inr {| opts := {| categorySize := Int 2; filterSize := Int 4;
                      fp64 := true; countItems := false |} |}.
Proof.
  apply (proj1 (constructor_validates_sizes
                  (Some {| categorySize_opt := Some (Int 2); filterSize_opt := Some (Int 4);
                           fp64_opt := Some true; countItems_opt := None |}))).
  unfold channel_count; simpl; split; [right; left | do 3 right]; reflexivity.
Defined.

(* ===================================================================== *)
(** * The fullscreen widget *)
(* ===================================================================== *)

Section WidgetProperties.
Import FullscreenWidget.

Lemma requestFullscreen_calls (w : Widget) :
  times this_requestFullscreen (calls (requestFullscreen w)) = 0%nat
  /\ times this_exitFullscreen (calls (requestFullscreen w)) = 0%nat
  /\ times document_exitFullscreen (calls (requestFullscreen w)) = 0%nat
  /\ (length (List.filter is_platform_request (calls (requestFullscreen w))) <= 1)%nat.
Proof.
  unfold requestFullscreen; simpl.
  destruct (canvas_parent w) as [[h]|]; cbn; repeat split; lia.
Qed.

Example click_outside_fullscreen :
  let d := {| canvas := Some {| parentElement := Some {| element_handle := 3 |} |} |} in
  let w := fst (onAdd (constructor (Build_FullscreenWidgetProps "w" None None None))
                  d {| element_handle := 8 |}) in
  calls (handleClick {| fullscreenElement := None |} w)
  = [this_requestFullscreen; Element_requestFullscreen {| element_handle := 3 |} "hide"].
Proof. reflexivity. Qed.

Example click_in_fullscreen :
  let w := constructor (Build_FullscreenWidgetProps "w" None None None) in
  calls (handleClick {| fullscreenElement := Some {| element_handle := 3 |} |} w)
  = [this_exitFullscreen; document_exitFullscreen].
Proof. reflexivity. Qed.

(** C5.  A click while no fullscreen element is active calls the widget's
    [requestFullscreen] exactly once and neither its [exitFullscreen] nor
    the document's (the request reaches the platform, once, if the canvas of
    the deck has a parent element); a click while one is active calls
    [exitFullscreen] exactly once (which calls [document.exitFullscreen]
    once) and makes no request, on the widget or on any element. *)
Theorem handleClick_toggles (doc : Document) (w : Widget) :
  let made := calls (handleClick doc w) in
  match fullscreenElement doc with
  | None =>
      times this_requestFullscreen made = 1%nat
      /\ times this_exitFullscreen made = 0%nat
      /\ times document_exitFullscreen made = 0%nat
      /\ List.filter is_platform_request made
         = match canvas_parent w with
           | Some e => [Element_requestFullscreen e "hide"]
           | None => []
           end
  | Some _ =>
      times this_exitFullscreen made = 1%nat
      /\ times this_requestFullscreen made = 0%nat
      /\ times document_exitFullscreen made = 1%nat
      /\ List.filter is_platform_request made = []
  end.
Proof.
  unfold handleClick, times.
  destruct (fullscreenElement doc) as [e|]; [repeat split; reflexivity|].
  unfold requestFullscreen.
  destruct (canvas_parent w) as [[h]|]; repeat split; reflexivity.
Qed.

(** C7.  After [onRemove] the widget holds neither the deck nor its root
    element, and everything else it holds is as before. *)
Theorem onRemove_releases_host (w : Widget) :
  deck (onRemove w) = None
  /\ element (onRemove w) = None
  /\ id (onRemove w) = id w
  /\ viewId (onRemove w) = viewId w
  /\ placement (onRemove w) = placement w
  /\ props (onRemove w) = props w
  /\ isFullscreen (onRemove w) = isFullscreen w.
Proof. repeat split. Qed.

Example onRemove_after_onAdd :
  let w := constructor (Build_FullscreenWidgetProps "fs" (Some "main") None None) in
  let w1 := fst (onAdd w {| canvas := None |} {| element_handle := 1 |}) in
  deck w1 = Some {| canvas := None |} /\ onRemove w1 = w.
Proof. split; reflexivity. Qed.

End WidgetProperties.

(* ===================================================================== *)
(** * The vector table source *)
(* ===================================================================== *)

Section SourceProperties.
Import Carto.

Context {BaseOptions MapType Result : Type}.
Variable MAP_TYPES_TABLE : MapType.
Variable CartoBaseSource :
  MapType -> CartoVectorTableSourceOptions BaseOptions ->
  gmap string string -> option Format -> Result.

Lemma urlParameters_name (options : CartoVectorTableSourceOptions BaseOptions) :
  urlParameters options !! "name" = Some (tableName options).
Proof.
  unfold urlParameters.
  destruct (columns options), (spatialDataColumn options) as [g|];
    try destruct (String.eqb g ""); by simplify_map_eq.
Qed.

(** C6.  For table "t1", columns ["a","b"] and geometry column "geom" the
    url parameters are {name: "t1", columns: "a,b", geo_column: "geom"},
    whatever the other options and the format; the base source is called
    with the table map type, the options, these parameters and the format
    as given; and without [columns] (or [spatialDataColumn]) the
    parameters have no [columns] (or [geo_column]) key. *)
Theorem vector_table_url_parameters :
  (forall (b : BaseOptions),
      urlParameters {| base := b; tableName := "t1";
                       columns := Some ["a"; "b"];
                       spatialDataColumn := Some "geom" |}
      = {[ "name" := "t1"; "columns" := "a,b"; "geo_column" := "geom" ]})
  /\ (forall options format,
        CartoVectorTableSource BaseOptions MapType MAP_TYPES_TABLE Result
          CartoBaseSource options format
        = CartoBaseSource MAP_TYPES_TABLE options (urlParameters options) format)
  /\ (forall options : CartoVectorTableSourceOptions BaseOptions,
        columns options = None -> urlParameters options !! "columns" = None)
  /\ (forall options : CartoVectorTableSourceOptions BaseOptions,
        spatialDataColumn options = None ->
        urlParameters options !! "geo_column" = None).
Proof.
  split; [| split; [| split]].
  - intros b. apply map_eq. intros k. unfold urlParameters; cbn.
    destruct (decide (k = "geo_column")) as [->|]; [by simplify_map_eq|].
    destruct (decide (k = "columns")) as [->|]; [by simplify_map_eq|].
    destruct (decide (k = "name")) as [->|]; by simplify_map_eq.
  - reflexivity.
  - intros options H. unfold urlParameters. rewrite H.
    destruct (spatialDataColumn options) as [g|];
      try destruct (String.eqb g ""); by simplify_map_eq.
  - intros options H. unfold urlParameters. rewrite H.
    destruct (columns options); by simplify_map_eq.
Qed.

End SourceProperties.

Example table_without_columns :
  Carto.urlParameters
    {| Carto.base := tt; Carto.tableName := "t1"; Carto.columns := None;
       Carto.spatialDataColumn := Some "" |}
  = {[ "name" := "t1" ]}.
Proof. reflexivity. Qed.

(* ===================================================================== *)
(** * draw: what the category loops leave of the state *)
(* ===================================================================== *)

(** The category map is the only part of the state [_getCategoryKey] reads or
    writes: the update flag passes through it. *)
Lemma getCategoryKey_set_flag (st : LayerState) (b : bool) (v : Value) :
  _getCategoryKey (set_filterNeedsUpdate st b) v
  = (set_filterNeedsUpdate (_getCategoryKey st v).1 b, (_getCategoryKey st v).2).
Proof. reflexivity. Qed.

Lemma getCategoryKeys_set_flag (cs : list Value) (st : LayerState) (b : bool) :
  getCategoryKeys (set_filterNeedsUpdate st b) cs
  = (set_filterNeedsUpdate (getCategoryKeys st cs).1 b, (getCategoryKeys st cs).2).
Proof.
  revert st. induction cs as [|c cs IH]; intros st; [reflexivity|].
  cbn [getCategoryKeys]. rewrite getCategoryKey_set_flag.
  destruct (_getCategoryKey st c) as [st1 r]. cbn [fst snd].
  rewrite IH. destruct (getCategoryKeys st1 cs) as [st2 rs]. reflexivity.
Qed.

Lemma addCategory_set_flag (M : Z) (c : nat) (st : LayerState) (mask : list Z)
    (b : bool) (v : Value) :
  addCategory M c (set_filterNeedsUpdate st b, mask) v
  = (set_filterNeedsUpdate (addCategory M c (st, mask) v).1 b,
     (addCategory M c (st, mask) v).2).
Proof.
  unfold addCategory. rewrite getCategoryKey_set_flag.
  destruct (_getCategoryKey st v) as [st' [k| |]]; reflexivity.
Qed.

Lemma fold_addCategory_set_flag (M : Z) (c : nat) (cats : list Value)
    (st : LayerState) (mask : list Z) (b : bool) :
  fold_left (addCategory M c) cats (set_filterNeedsUpdate st b, mask)
  = (set_filterNeedsUpdate (fold_left (addCategory M c) cats (st, mask)).1 b,
     (fold_left (addCategory M c) cats (st, mask)).2).
Proof.
  revert st mask. induction cats as [|v cats IH]; intros st mask; [reflexivity|].
  cbn [fold_left]. rewrite addCategory_set_flag.
  destruct (addCategory M c (st, mask) v) as [st' mask']. apply IH.
Qed.

Lemma addCategoryFilters_set_flag (M : Z) (groups : list Value) (c : nat)
    (st : LayerState) (mask : list Z) (b : bool) :
  addCategoryFilters M c (set_filterNeedsUpdate st b) mask groups
  = (set_filterNeedsUpdate (addCategoryFilters M c st mask groups).1 b,
     (addCategoryFilters M c st mask groups).2).
Proof.
  revert c st mask. induction groups as [|g groups IH]; intros c st mask;
    [reflexivity|].
  cbn [addCategoryFilters]. destruct (iterate g) as [cats|]; [|reflexivity].
  rewrite fold_addCategory_set_flag.
  destruct (fold_left (addCategory M c) cats (st, mask)) as [st' mask'].
  apply IH.
Qed.

Lemma categoryBitMask_set_flag (n : number) (st : LayerState) (b : bool)
    (l : Value) :
  categoryBitMask n (set_filterNeedsUpdate st b) l
  = (set_filterNeedsUpdate (categoryBitMask n st l).1 b, (categoryBitMask n st l).2).
Proof.
  unfold categoryBitMask.
  destruct (if number_is n 1 then Some [l] else indexed l); [|reflexivity].
  apply addCategoryFilters_set_flag.
Qed.

(** The bit mask [draw] computes is the one of the category loops on the
    state it was called with: the counting branch does not touch the map. *)
Lemma draw_mask (id : string) (st : LayerState) (props : LayerProps)
    (extension : Extension) (color : list Z) :
  filter_categoryBitMask (draw id st props extension color)
  = (categoryBitMask (categorySize (opts extension)) st (filterCategoryList props)).2.
Proof.
  unfold draw.
  destruct (filterNeedsUpdate st), (onFilteredItemsChange props), (filterModel st);
    try (destruct (categoryBitMask _ st _); reflexivity).
  rewrite categoryBitMask_set_flag.
  destruct (categoryBitMask _ st _); reflexivity.
Qed.

(* ===================================================================== *)
(** * draw: counting the filtered items *)
(* ===================================================================== *)

Lemma count_pixels_from (color : list Z) (start : Z) :
  fold_left (fun count x => count + x) color start = start + total color.
Proof.
  revert start. induction color as [|x color IH]; intros start; cbn.
  - lia.
  - rewrite IH. unfold total. lia.
Qed.

Lemma count_pixels_total (color : list Z) : count_pixels color = total color.
Proof. unfold count_pixels. rewrite count_pixels_from. lia. Qed.

Example count_three_pixels : count_pixels [1; 0; 1; 1; 0] = 3.
Proof. reflexivity. Qed.

(** C4.  When the filter needs an update, a callback is set and the counting
    model exists, [draw] calls the callback exactly once, with the id of the
    layer and the sum of all elements of the buffer read back, and leaves
    [filterNeedsUpdate] false. *)
Theorem draw_counts_items (id : string) (st : LayerState) (props : LayerProps)
    (extension : Extension) (color : list Z) (callback model : nat) :
  filterNeedsUpdate st = true ->
  onFilteredItemsChange props = Some callback ->
  filterModel st = Some model ->
  drawn_events (draw id st props extension color)
  = [ {| ev_callback := callback; ev_id := id; ev_count := total color |} ]
  /\ filterNeedsUpdate (drawn_state (draw id st props extension color)) = false.
Proof.
  intros Hu Hc Hm. unfold draw. rewrite Hu, Hc, Hm.
  rewrite categoryBitMask_set_flag, count_pixels_total.
  destruct (categoryBitMask _ st _) as [st2 mask]. split; reflexivity.
Qed.

(** A layer with three items on screen, two of them in the listed category. *)
Lemma draw_counts_items_witness :
  let st := {| categoryMap := None; filterNeedsUpdate := true;
               filterModel := Some 1%nat |} in
  let props := {| onFilteredItemsChange := Some 5%nat;
                  filterCategoryList := VArray [VString "a"] |} in
  let ext := {| opts := {| categorySize := Int 1; filterSize := Int 1;
                           fp64 := false; countItems := true |} |} in
  drawn_events (draw "layer-1" st props ext [1; 1; 0; 0])
  = [ {| ev_callback := 5%nat; ev_id := "layer-1"; ev_count := 2 |} ]
  /\ filterNeedsUpdate (drawn_state (draw "layer-1" st props ext [1; 1; 0; 0])) = false.
Proof.
  intros st props ext.
  apply (draw_counts_items "layer-1" st props ext [1; 1; 0; 0] 5%nat 1%nat);
    reflexivity.
Defined.

(* ===================================================================== *)
(** * The category map *)
(* ===================================================================== *)

Section Ordinal.
Implicit Types (k : string) (p q : list string).

Lemma distinct_count p :
  length (remove_dups p) = size (list_to_set p : gset string).
Proof.
  induction p as [|x p IH]; [reflexivity|].
  cbn [remove_dups]. rewrite list_to_set_cons.
  destruct (decide_rel elem_of x p) as [Hin|Hin].
  - rewrite IH. f_equal. set_solver.
  - cbn [length]. rewrite IH, size_union by set_solver.
    rewrite size_singleton. lia.
Qed.

Lemma distinct_count_seen p k :
  k ∈ p -> length (remove_dups (p ++ [k])) = length (remove_dups p).
Proof.
  intros Hin. rewrite !distinct_count. f_equal.
  rewrite list_to_set_app_L. set_solver.
Qed.

Lemma distinct_count_new p k :
  k ∉ p -> length (remove_dups (p ++ [k])) = S (length (remove_dups p)).
Proof.
  intros Hin. rewrite !distinct_count, list_to_set_app_L.
  rewrite size_union by set_solver.
  cbn. rewrite union_empty_r_L, size_singleton. lia.
Qed.

Lemma first_index_seen p q k :
  k ∈ p -> first_index k (p ++ q) = first_index k p /\ (first_index k p < length p)%nat.
Proof.
  induction p as [|x p IH]; [intros H; inversion H|].
  intros Hin. cbn. destruct (decide (x = k)) as [->|Hne]; [lia|].
  apply elem_of_cons in Hin as [->|Hin]; [done|].
  destruct (IH Hin). lia.
Qed.

Lemma first_index_new p q k :
  k ∉ p -> first_index k (p ++ k :: q) = length p.
Proof.
  induction p as [|x p IH]; intros Hnin; cbn.
  - by rewrite decide_True.
  - apply not_elem_of_cons in Hnin as [Hne Hnin].
    rewrite decide_False by done. by rewrite IH.
Qed.

Lemma ordinal_seen p q k : k ∈ p -> ordinal (p ++ q) k = ordinal p k.
Proof.
  intros Hin. unfold ordinal.
  destruct (first_index_seen p q k Hin) as [-> Hlt].
  by rewrite take_app_le by lia.
Qed.

Lemma ordinal_new p q k :
  k ∉ p -> ordinal (p ++ k :: q) k = length (remove_dups p).
Proof.
  intros Hnin. unfold ordinal.
  by rewrite first_index_new, take_app_length.
Qed.
End Ordinal.

Lemma getCategoryKey_own_keys (st : LayerState) (v : Value) :
  own_keys (_getCategoryKey st v).1
  = if has_property (own_keys st) (ToPropertyKey v) then own_keys st
    else <[ToPropertyKey v := size (own_keys st)]> (own_keys st).
Proof. reflexivity. Qed.

Lemma getCategoryKey_returns (st : LayerState) (v : Value) :
  (_getCategoryKey st v).2
  = get_property (own_keys (_getCategoryKey st v).1) (ToPropertyKey v).
Proof. reflexivity. Qed.

Lemma tracks_empty : tracks ∅ [].
Proof.
  split; [|reflexivity]. intros k. rewrite lookup_empty.
  rewrite decide_False; [done|]. apply not_elem_of_nil.
Qed.

Lemma tracks_seen (m : gmap string nat) (p : list string) (k : string) :
  tracks m p -> k ∈ p -> tracks m (p ++ [k]).
Proof.
  intros [Hl Hs] Hin. split.
  - intros k'. rewrite Hl.
    destruct (decide (k' ∈ p)) as [Hin'|Hnin'].
    + rewrite decide_True by set_solver. by rewrite ordinal_seen.
    + rewrite decide_False; [done|]. set_solver.
  - by rewrite distinct_count_seen.
Qed.

Lemma tracks_new (m : gmap string nat) (p : list string) (k : string) :
  tracks m p -> k ∉ p -> tracks (<[k := size m]> m) (p ++ [k]).
Proof.
  intros [Hl Hs] Hnin. split.
  - intros k'. destruct (decide (k' = k)) as [->|Hne].
    + rewrite lookup_insert_eq, decide_True by set_solver.
      by rewrite ordinal_new, Hs.
    + rewrite lookup_insert_ne by done. rewrite Hl.
      destruct (decide (k' ∈ p)) as [Hin'|Hnin'].
      * rewrite decide_True by set_solver. by rewrite ordinal_seen.
      * rewrite decide_False; [done|]. set_solver.
  - rewrite map_size_insert_None, distinct_count_new, Hs; [done..|].
    rewrite Hl. by rewrite decide_False.
Qed.

Lemma getCategoryKeys_ordinals (categories : list Value) :
  forall (st : LayerState) (p : list string),
    tracks (own_keys st) p ->
    Forall (fun c => inherited (ToPropertyKey c) = false) categories ->
    (getCategoryKeys st categories).2
    = (fun c => Key (ordinal (p ++ (ToPropertyKey <$> categories)) (ToPropertyKey c)))
        <$> categories.
Proof.
  induction categories as [|c cs IH]; intros st p Ht Hall; [reflexivity|].
  apply Forall_cons in Hall as [Hc Hall].
  cbn [getCategoryKeys].
  pose proof (getCategoryKey_own_keys st c) as Hown.
  pose proof (getCategoryKey_returns st c) as Hret.
  destruct (_getCategoryKey st c) as [st1 r]. cbn [fst snd] in Hown, Hret.
  specialize (IH st1 (p ++ [ToPropertyKey c])).
  destruct (getCategoryKeys st1 cs) as [st2 rs]. cbn [fst snd] in IH |- *.
  rewrite !fmap_cons. rewrite <- (app_assoc p [_]) in IH. cbn [app] in IH.
  unfold has_property in Hown. rewrite Hc, orb_false_r in Hown.
  destruct Ht as [Hl Hs]. pose proof (Hl (ToPropertyKey c)) as Hk.
  destruct (decide (ToPropertyKey c ∈ p)) as [Hin|Hnin].
  - rewrite bool_decide_eq_true_2 in Hown by (rewrite Hk; eauto).
    f_equal.
    + rewrite Hret, Hown. unfold get_property. rewrite Hk.
      by rewrite ordinal_seen.
    + apply IH; [|done]. rewrite Hown. by apply tracks_seen.
  - rewrite bool_decide_eq_false_2 in Hown by (rewrite Hk; by intros [? ?]).
    f_equal.
    + rewrite Hret, Hown. unfold get_property. rewrite lookup_insert_eq.
      by rewrite ordinal_new, Hs.
    + apply IH; [|done]. rewrite Hown. by apply tracks_new.
Qed.

Example keys_of_mixed_values :
  (getCategoryKeys initial_state
     [VString "a"; VNumber 3; VString "a"; VBoolean true; VNumber 3; VNull]).2
  = [Key 0; Key 1; Key 0; Key 2; Key 1; Key 3].
Proof. vm_compute. reflexivity. Qed.

(** A category named like a member of [Object.prototype] is "in" the empty
    map: nothing is stored for it and what comes back is that member. *)
Example inherited_name_gets_no_key :
  (getCategoryKeys initial_state [VString "a"; VString "toString"; VString "b"]).2
  = [Key 0; Inherited "toString"; Key 1].
Proof. vm_compute. reflexivity. Qed.

(** C2, as stated, fails: the number 7 and the string "7" are two distinct
    values, yet the second one seen gets key 0 again, not key 1. *)
Lemma getCategoryKey_number_and_string_share_key :
  VNumber 7 <> VString "7"
  /\ (getCategoryKeys initial_state [VNumber 7; VString "7"]).2 = [Key 0; Key 0].
Proof. split; [discriminate | vm_compute; reflexivity]. Qed.

(** C2, amended.  On a layer whose state has no category map yet, for every
    sequence of categories none of which is named like a member of
    [Object.prototype]: each call returns the number of distinct property
    keys (string forms) seen before the key of its category was first seen,
    so the n-th distinct string form gets n-1, whatever the type of the
    value; and two calls with the same string form return the same key,
    however many calls lie between them. *)
Theorem getCategoryKey_sequential_keys (st : LayerState) (categories : list Value) :
  categoryMap st = None ->
  Forall (fun c => inherited (ToPropertyKey c) = false) categories ->
  let returned := (getCategoryKeys st categories).2 in
  returned
  = (fun c => Key (ordinal (ToPropertyKey <$> categories) (ToPropertyKey c)))
      <$> categories
  /\ (forall (i j : nat) (ci cj : Value),
        categories !! i = Some ci -> categories !! j = Some cj ->
        ToPropertyKey ci = ToPropertyKey cj ->
        returned !! i = returned !! j).
Proof.
  intros Hnone Hall returned.
  assert (Heq : returned
    = (fun c => Key (ordinal (ToPropertyKey <$> categories) (ToPropertyKey c)))
        <$> categories).
  { apply (getCategoryKeys_ordinals categories st []); [|done].
    unfold own_keys. rewrite Hnone. exact tracks_empty. }
  split; [exact Heq|].
  intros i j ci cj Hi Hj Hk. rewrite Heq, !list_lookup_fmap, Hi, Hj. cbn.
  by rewrite Hk.
Qed.

(** Five calls, three distinct string forms. *)
Lemma getCategoryKey_sequential_keys_witness :
  (getCategoryKeys initial_state
     [VString "x"; VNumber 7; VString "7"; VString "y"; VString "x"]).2
  = [Key 0; Key 1; Key 1; Key 2; Key 0].
Proof.
  refine (proj1 (getCategoryKey_sequential_keys initial_state
            [VString "x"; VNumber 7; VString "7"; VString "y"; VString "x"]
            eq_refl _)).
  repeat constructor.
Defined.

(** Once a property key is in the map (or inherited), later calls neither
    remove it nor change what is read for it. *)
Lemma getCategoryKey_keeps (st : LayerState) (c : Value) (k : string) :
  has_property (own_keys st) k = true ->
  has_property (own_keys (_getCategoryKey st c).1) k = true
  /\ get_property (own_keys (_getCategoryKey st c).1) k
     = get_property (own_keys st) k.
Proof.
  intros Hin. rewrite getCategoryKey_own_keys.
  destruct (has_property (own_keys st) (ToPropertyKey c)) eqn:Hc; [done|].
  assert (Hne : ToPropertyKey c <> k) by congruence.
  unfold has_property, get_property in *.
  rewrite lookup_insert_ne by done. done.
Qed.

Lemma getCategoryKeys_keep (between : list Value) (st : LayerState) (k : string) :
  has_property (own_keys st) k = true ->
  has_property (own_keys (getCategoryKeys st between).1) k = true
  /\ get_property (own_keys (getCategoryKeys st between).1) k
     = get_property (own_keys st) k.
Proof.
  revert st. induction between as [|c cs IH]; intros st Hin; [done|].
  cbn [getCategoryKeys].
  destruct (getCategoryKey_keeps st c k Hin) as [Hin1 Hget1].
  destruct (_getCategoryKey st c) as [st1 r]. cbn [fst] in Hin1, Hget1.
  destruct (IH st1 Hin1) as [Hin2 Hget2].
  destruct (getCategoryKeys st1 cs) as [st2 rs]. cbn [fst] in *.
  split; [done|congruence].
Qed.

(** After a call, the key of its category is in the map (or inherited). *)
Lemma getCategoryKey_has (st : LayerState) (v : Value) :
  has_property (own_keys (_getCategoryKey st v).1) (ToPropertyKey v) = true.
Proof.
  rewrite getCategoryKey_own_keys.
  destruct (has_property (own_keys st) (ToPropertyKey v)) eqn:Hc; [done|].
  unfold has_property. rewrite lookup_insert_eq.
  by rewrite bool_decide_eq_true_2 by eauto.
Qed.

(** A call for a key already in the map returns what is read there. *)
Lemma getCategoryKey_known (st : LayerState) (v : Value) :
  has_property (own_keys st) (ToPropertyKey v) = true ->
  (_getCategoryKey st v).2 = get_property (own_keys st) (ToPropertyKey v).
Proof.
  intros Hin. rewrite getCategoryKey_returns, getCategoryKey_own_keys.
  by rewrite Hin.
Qed.

(** C9.  Two values with the same string form get the same key: whatever the
    state of the layer, whatever a call with the first returns, a call with
    the second returns too, directly afterwards or after any further calls. *)
Theorem getCategoryKey_by_string_form (st : LayerState) (v1 v2 : Value)
    (between : list Value) :
  ToPropertyKey v1 = ToPropertyKey v2 ->
  let st1 := (_getCategoryKey st v1).1 in
  let st2 := (getCategoryKeys st1 between).1 in
  (_getCategoryKey st2 v2).2 = (_getCategoryKey st v1).2.
Proof.
  intros Hk st1 st2.
  pose proof (getCategoryKey_has st v1) as Hin. fold st1 in Hin.
  destruct (getCategoryKeys_keep between st1 _ Hin) as [Hin2 Hget2].
  fold st2 in Hin2, Hget2.
  rewrite getCategoryKey_known by (by rewrite <- Hk).
  rewrite <- Hk, Hget2. symmetry. apply getCategoryKey_returns.
Qed.

(** The number 7 and the string "7" collide, with other calls in between. *)
Lemma getCategoryKey_by_string_form_witness :
  let st1 := (_getCategoryKey initial_state (VNumber 7)).1 in
  let st2 := (getCategoryKeys st1 [VString "a"; VNumber 8]).1 in
  VNumber 7 <> VString "7"
  /\ (_getCategoryKey st2 (VString "7")).2
     = (_getCategoryKey initial_state (VNumber 7)).2.
Proof.
  split; [discriminate|].
  apply (getCategoryKey_by_string_form initial_state (VNumber 7) (VString "7")
           [VString "a"; VNumber 8]).
  reflexivity.
Defined.

(** C8 fails on the code: the 129th distinct category gets key 128, so the
    keys do not stay within 0-127 (the comment in [draw] says
    "value 0-127"). *)
Theorem getCategoryKey_exceeds_127 :
  (getCategoryKeys initial_state (numbered 129)).2 !! 128%nat = Some (Key 128)
  /\ (own_keys (getCategoryKeys initial_state (numbered 129)).1) !! "128"
     = Some 128%nat.
Proof. split; vm_compute; reflexivity. Qed.

(* ===================================================================== *)
(** * draw: the category bit mask *)
(* ===================================================================== *)

Lemma total_app (a b : list Z) : total (a ++ b) = total a + total b.
Proof. unfold total. induction a as [|x a IH]; cbn; lia. Qed.

Lemma sum_contributions_app (M w : Z) (a b : list (nat * Property)) :
  sum_contributions M w (a ++ b) = sum_contributions M w a + sum_contributions M w b.
Proof. unfold sum_contributions. by rewrite fmap_app, total_app. Qed.

Lemma words_ext (f g : Z -> Z) :
  (forall w, 0 <= w < 4 -> f w = g w) -> words f = words g.
Proof.
  intros H. unfold words. cbn [fmap list_fmap].
  rewrite (H 0), (H 1), (H 2), (H 3) by lia. reflexivity.
Qed.

(** Adding to a word of the array adds to the sum it holds; a store outside
    the four words changes nothing. *)
Lemma Uint32Array_add_words (f : Z -> Z) (channel v : Z) :
  Uint32Array_add (words f) channel v
  = words (fun w => f w + (if channel =? w then v else 0)).
Proof.
  unfold Uint32Array_add.
  destruct (channel <? 0) eqn:Hneg.
  { apply words_ext. intros w Hw.
    destruct (channel =? w) eqn:E; lia. }
  assert (Hcases : channel = 0 \/ channel = 1 \/ channel = 2 \/ channel = 3 \/ 4 <= channel)
    by lia.
  destruct Hcases as [-> | [-> | [-> | [-> | Hge]]]].
  1-4: unfold words; cbn [fmap list_fmap Z.eqb Pos.eqb];
       match goal with
       | |- context [Z.to_nat ?z] =>
           let n := eval vm_compute in (Z.to_nat z) in change (Z.to_nat z) with n
       end;
       cbn [lookup list_lookup insert list_insert];
       rewrite Zplus_mod_idemp_l, !Z.add_0_r; reflexivity.
  rewrite lookup_ge_None_2 by (unfold words; cbn [fmap list_fmap length]; lia).
  apply words_ext. intros w Hw. destruct (channel =? w) eqn:E; lia.
Qed.

Lemma addCategory_words (M : Z) (c : nat) (st : LayerState) (f : Z -> Z) (v : Value) :
  addCategory M c (st, words f) v
  = ((_getCategoryKey st v).1,
     words (fun w => f w + contribution M w (c, (_getCategoryKey st v).2))).
Proof.
  unfold addCategory. destruct (_getCategoryKey st v) as [st' [k| |]]; cbn [fst snd].
  - by rewrite Uint32Array_add_words.
  - f_equal. apply words_ext. intros; cbn. lia.
  - f_equal. apply words_ext. intros; cbn. lia.
Qed.

Lemma fold_addCategory_words (M : Z) (c : nat) (cats : list Value) :
  forall (st : LayerState) (f : Z -> Z),
    fold_left (addCategory M c) cats (st, words f)
    = ((getCategoryKeys st cats).1,
       words (fun w => f w + sum_contributions M w (pair c <$> (getCategoryKeys st cats).2))).
Proof.
  induction cats as [|v cats IH]; intros st f.
  - cbn [fold_left getCategoryKeys fst snd]. f_equal. apply words_ext. intros. unfold sum_contributions; cbn. lia.
  - cbn [fold_left getCategoryKeys]. rewrite addCategory_words, IH.
    destruct (_getCategoryKey st v) as [st1 r]. cbn [fst snd].
    destruct (getCategoryKeys st1 cats) as [st2 rs]. cbn [fst snd].
    f_equal. apply words_ext. intros w _.
    unfold sum_contributions. rewrite !fmap_cons. unfold total; cbn [foldr]. lia.
Qed.

Lemma addCategoryFilters_words (M : Z) (categoryFilters : list Value)
    (groups : list (list Value)) :
  mapM iterate categoryFilters = Some groups ->
  forall (c : nat) (st : LayerState) (f : Z -> Z),
    (addCategoryFilters M c st (words f) categoryFilters).2
    = inr (words (fun w => f w + sum_contributions M w (group_keys c st groups))).
Proof.
  rewrite mapM_Some. induction 1 as [|g cats gs groups Hg _ IH]; intros c st f.
  - cbn [addCategoryFilters group_keys snd]. f_equal. apply words_ext. intros. unfold sum_contributions; cbn. lia.
  - cbn [addCategoryFilters group_keys]. rewrite Hg, fold_addCategory_words.
    destruct (getCategoryKeys st cats) as [st' keys]. cbn [fst snd].
    rewrite IH. f_equal. apply words_ext. intros w _.
    rewrite sum_contributions_app. lia.
Qed.

(** A list of groups that cannot be gone through makes [draw] throw. *)
Lemma addCategoryFilters_throws (M : Z) (categoryFilters : list Value) :
  mapM iterate categoryFilters = None ->
  forall (c : nat) (st : LayerState) (mask : list Z),
    (addCategoryFilters M c st mask categoryFilters).2 = inl TypeError.
Proof.
  induction categoryFilters as [|g gs IH]; intros Hn c st mask; [discriminate|].
  cbn [addCategoryFilters]. cbn in Hn.
  destruct (iterate g) as [cats|]; [|reflexivity].
  destruct (fold_left _ cats _) as [st' mask'].
  apply IH. cbn in Hn. destruct (mapM iterate gs); [discriminate|reflexivity].
Qed.

(** The mask in closed form: every word is the sum of what the occurrences of
    keys add to it, reduced modulo 2^32. *)
Lemma categoryBitMask_sums (n : number) (st : LayerState) (l : Value)
    (groups : list (list Value)) :
  category_groups n l = Some groups ->
  (categoryBitMask n st l).2
  = inr (words (fun w => sum_contributions (maxCategories n) w (group_keys 0 st groups))).
Proof.
  unfold category_groups, categoryBitMask. intros H.
  destruct (if number_is n 1 then Some [l] else indexed l) as [gv|]; [|discriminate].
  cbn in H.
  change Uint32Array_zero4 with (words (fun _ => 0)).
  by rewrite (addCategoryFilters_words _ _ _ H).
Qed.

Lemma categoryBitMask_throws (n : number) (st : LayerState) (l : Value) :
  category_groups n l = None ->
  (categoryBitMask n st l).2 = inl TypeError.
Proof.
  unfold category_groups, categoryBitMask. intros H.
  destruct (if number_is n 1 then Some [l] else indexed l) as [gv|]; [|reflexivity].
  cbn in H. by apply addCategoryFilters_throws.
Qed.

Lemma words_inj (f g : Z -> Z) :
  words f = words g -> forall w, 0 <= w < 4 -> f w mod 2 ^ 32 = g w mod 2 ^ 32.
Proof.
  unfold words. cbn [fmap list_fmap]. intros H w Hw.
  injection H as H0 H1 H2 H3.
  assert (Hc : w = 0 \/ w = 1 \/ w = 2 \/ w = 3) by lia.
  by destruct Hc as [-> | [-> | [-> | ->]]].
Qed.

Lemma addend_bounds (k : nat) : 0 < 2 ^ (Z.of_nat k mod 32) < 2 ^ 32.
Proof.
  pose proof (Z.mod_pos_bound (Z.of_nat k) 32 ltac:(lia)) as Hb.
  split; [apply Z.pow_pos_nonneg; lia | apply Z.pow_lt_mono_r; lia].
Qed.

(** The words when a single addend [x] went to word [channel]. *)
Lemma words_single (channel x : Z) :
  0 <= channel < 4 -> 0 <= x < 2 ^ 32 ->
  words (fun w => if channel =? w then x else 0)
  = <[Z.to_nat channel := x]> [0; 0; 0; 0].
Proof.
  intros Hc Hx.
  assert (Hcases : channel = 0 \/ channel = 1 \/ channel = 2 \/ channel = 3) by lia.
  destruct Hcases as [-> | [-> | [-> | ->]]];
    unfold words; cbn [fmap list_fmap Z.eqb Pos.eqb];
    rewrite (Z.mod_small x) by lia; reflexivity.
Qed.

(** In a mask with one addend [2 ^ e], exactly bit [e] of its word is set. *)
Lemma single_bit_mask (channel e : Z) :
  0 <= channel < 4 -> 0 <= e ->
  forall i b : nat, (i < 4)%nat ->
    Z.testbit ((<[Z.to_nat channel := 2 ^ e]> [0; 0; 0; 0] : list Z) !!! i) (Z.of_nat b)
    = bool_decide (Z.of_nat i = channel /\ Z.of_nat b = e).
Proof.
  intros Hc He i b Hi.
  assert (Hcases : channel = 0 \/ channel = 1 \/ channel = 2 \/ channel = 3) by lia.
  destruct i as [|[|[|[|i]]]]; [| | | |lia];
    destruct Hcases as [-> | [-> | [-> | ->]]];
    match goal with
    | |- context [Z.to_nat ?z] =>
        let n := eval vm_compute in (Z.to_nat z) in change (Z.to_nat z) with n
    end;
    cbn [insert list_insert lookup_total list_lookup_total];
    first [ rewrite Z.pow2_bits_eqb by lia;
            destruct (Z.eqb_spec e (Z.of_nat b));
            [ rewrite bool_decide_eq_true_2 by lia; reflexivity
            | rewrite bool_decide_eq_false_2 by lia; reflexivity ]
          | rewrite Z.bits_0, bool_decide_eq_false_2 by lia; reflexivity ].
Qed.

(** Asking again for the category just asked for gives the same key. *)
Lemma getCategoryKey_again (st : LayerState) (v : Value) :
  (_getCategoryKey (_getCategoryKey st v).1 v).2 = (_getCategoryKey st v).2.
Proof.
  rewrite getCategoryKey_known by apply getCategoryKey_has.
  symmetry. apply getCategoryKey_returns.
Qed.

Lemma group_keys_only (n : nat) (v : Value) :
  forall (c : nat) (st : LayerState),
    group_keys c st (only_in_group n v) = [((c + n)%nat, (_getCategoryKey st v).2)].
Proof.
  unfold only_in_group.
  induction n as [|n IH]; intros c st.
  - cbn. destruct (_getCategoryKey st v) as [st' r]. cbn. by rewrite Nat.add_0_r.
  - cbn [replicate app group_keys getCategoryKeys fmap list_fmap].
    rewrite IH. cbn. by rewrite Nat.add_succ_r.
Qed.

(** The mask [draw] leaves when one key is listed, in group [c]. *)
Lemma draw_mask_single (id : string) (st : LayerState) (props : LayerProps)
    (extension : Extension) (color : list Z) (c : nat) (v : Value) (k : nat) :
  category_groups (categorySize (opts extension)) (filterCategoryList props)
  = Some (only_in_group c v) ->
  (_getCategoryKey st v).2 = Key k ->
  0 <= channel_of (maxCategories (categorySize (opts extension))) c k < 4 ->
  filter_categoryBitMask (draw id st props extension color)
  = inr (<[Z.to_nat (channel_of (maxCategories (categorySize (opts extension))) c k)
           := 2 ^ (Z.of_nat k mod 32)]> [0; 0; 0; 0]).
Proof.
  intros Hg Hk Hc. rewrite draw_mask, (categoryBitMask_sums _ _ _ _ Hg).
  rewrite group_keys_only, Hk. f_equal.
  rewrite <- words_single by (pose proof (addend_bounds k); lia).
  apply words_ext. intros w _. unfold sum_contributions, total. cbn. lia.
Qed.

Lemma category_groups_flat (l : list Value) :
  category_groups (Int 1) (VArray l) = Some [l].
Proof. reflexivity. Qed.

Example mask_of_two_groups :
  let ext := {| opts := {| categorySize := Int 2; filterSize := Int 1;
                           fp64 := false; countItems := false |} |} in
  let props := {| onFilteredItemsChange := None;
                  filterCategoryList :=
                    VArray [VArray [VString "a"; VString "b"]; VArray [VString "b"]] |} in
  filter_categoryBitMask (draw "layer" initial_state props ext [])
  = inr [3; 0; 2; 0].
Proof. vm_compute. reflexivity. Qed.

Example mask_of_ungrouped_list_throws :
  let ext := {| opts := {| categorySize := Int 2; filterSize := Int 1;
                           fp64 := false; countItems := false |} |} in
  let props := {| onFilteredItemsChange := None;
                  filterCategoryList := VArray [VNumber 1; VNumber 2] |} in
  filter_categoryBitMask (draw "layer" initial_state props ext []) = inl TypeError.
Proof. vm_compute. reflexivity. Qed.

(** C3.  The bit mask of [draw] has four words, computed from
    [filterCategoryList]: with [maxCategories] 128 for [categorySize] 1, 64
    for 2 and 32 otherwise, every listed category, with key [k] in channel
    group [c], adds [2 ^ (k mod 32)] to word
    [c * (maxCategories / 32) + floor(k / 32)], so that each word is the sum
    (modulo 2^32) of the addends of all listed keys that go to it.  A key
    listed alone sets exactly bit [k mod 32] of its word and no other bit of
    the mask.  For [categorySize] 1 and the keys 0, 31, 32 and 127 the masks
    are those of the table. *)
Theorem draw_bitmask_packing :
  (maxCategories (Int 1) = 128 /\ maxCategories (Int 2) = 64
   /\ forall n, n <> Int 1 -> n <> Int 2 -> maxCategories n = 32)
  /\ (forall id st props extension color (groups : list (list Value)),
        let n := categorySize (opts extension) in
        category_groups n (filterCategoryList props) = Some groups ->
        exists mask : list Z,
          filter_categoryBitMask (draw id st props extension color) = inr mask
          /\ length mask = 4%nat
          /\ forall w : nat, (w < 4)%nat ->
               mask !!! w
               = total ((fun occurrence : nat * Property =>
                           match occurrence with
                           | (c, Key k) =>
                               if Z.of_nat c * (maxCategories n / 32) + Z.of_nat k / 32
                                  =? Z.of_nat w
                               then 2 ^ (Z.of_nat k mod 32)
                               else 0
                           | _ => 0
                           end) <$> group_keys 0 st groups)
                 mod 2 ^ 32)
  /\ (forall id st props extension color (c : nat) (v : Value) (k : nat),
        let n := categorySize (opts extension) in
        let word := Z.of_nat c * (maxCategories n / 32) + Z.of_nat k / 32 in
        category_groups n (filterCategoryList props) = Some (only_in_group c v) ->
        (_getCategoryKey st v).2 = Key k ->
        0 <= word < 4 ->
        exists mask : list Z,
          filter_categoryBitMask (draw id st props extension color) = inr mask
          /\ length mask = 4%nat
          /\ mask = <[Z.to_nat word := 2 ^ (Z.of_nat k mod 32)]> [0; 0; 0; 0]
          /\ forall i b : nat, (i < 4)%nat ->
               Z.testbit (mask !!! i) (Z.of_nat b)
               = bool_decide (Z.of_nat i = word /\ Z.of_nat b = Z.of_nat k mod 32))
  /\ (forall id st props extension color (v : Value),
        categorySize (opts extension) = Int 1 ->
        filterCategoryList props = VArray [v] ->
        let mask := filter_categoryBitMask (draw id st props extension color) in
        ((_getCategoryKey st v).2 = Key 0 -> mask = inr [1; 0; 0; 0])
        /\ ((_getCategoryKey st v).2 = Key 31 -> mask = inr [2147483648; 0; 0; 0])
        /\ ((_getCategoryKey st v).2 = Key 32 -> mask = inr [0; 1; 0; 0])
        /\ ((_getCategoryKey st v).2 = Key 127 -> mask = inr [0; 0; 0; 2147483648])).
Proof.
  split; [|split; [|split]].
  - repeat split.
    intros [z| | |b] H1 H2; try reflexivity.
    unfold maxCategories, number_is.
    destruct (Z.eqb_spec z 1) as [->|_]; [congruence|].
    destruct (Z.eqb_spec z 2) as [->|_]; [congruence|reflexivity].
  - intros id st props extension color groups n Hg.
    eexists. split; [|split].
    + rewrite draw_mask. exact (categoryBitMask_sums _ _ _ _ Hg).
    + reflexivity.
    + intros w Hw. destruct w as [|[|[|[|w]]]]; [reflexivity..|lia].
  - intros id st props extension color c v k n word Hg Hk Hw.
    pose proof (Z.mod_pos_bound (Z.of_nat k) 32 ltac:(lia)) as Hb.
    exists (<[Z.to_nat word := 2 ^ (Z.of_nat k mod 32)]> [0; 0; 0; 0]).
    split; [|split; [|split]].
    + exact (draw_mask_single id st props extension color c v k Hg Hk Hw).
    + by rewrite length_insert.
    + reflexivity.
    + apply single_bit_mask; lia.
  - intros id st props extension color v Hn Hl mask.
    assert (Hg : category_groups (categorySize (opts extension)) (filterCategoryList props)
                 = Some (only_in_group 0 v))
      by (rewrite Hn, Hl; reflexivity).
    subst mask.
    repeat split; intros Hk;
      rewrite (draw_mask_single _ _ _ _ _ _ _ _ Hg Hk) by (rewrite Hn; vm_compute; done);
      rewrite Hn; reflexivity.
Qed.

(** Key 127 on a layer that has seen 128 categories: bit 31 of word 3. *)
Lemma draw_bitmask_packing_witness :
  let st := (getCategoryKeys initial_state (numbered 128)).1 in
  let ext := {| opts := {| categorySize := Int 1; filterSize := Int 1;
                           fp64 := false; countItems := false |} |} in
  let props := {| onFilteredItemsChange := None;
                  filterCategoryList := VArray [VNumber 127] |} in
  filter_categoryBitMask (draw "layer" st props ext []) = inr [0; 0; 0; 2147483648].
Proof.
  intros st ext props.
  refine (proj2 (proj2 (proj2
            (proj2 (proj2 (proj2 draw_bitmask_packing)) "layer" st props ext []
               (VNumber 127) eq_refl eq_refl))) _).
  vm_compute. reflexivity.
Defined.

(** C10.  Every word of the bit mask is the sum, over all occurrences of keys
    in the category list that go to this word, duplicates included, of
    [2 ^ (key mod 32)], reduced modulo 2^32.  So listing a category twice
    does not give the mask of listing it once. *)
Theorem draw_bitmask_adds_with_multiplicity :
  (forall id st props extension color (groups : list (list Value)),
      let n := categorySize (opts extension) in
      category_groups n (filterCategoryList props) = Some groups ->
      filter_categoryBitMask (draw id st props extension color)
      = inr ((fun w => sum_contributions (maxCategories n) w (group_keys 0 st groups)
                       mod 2 ^ 32) <$> [0; 1; 2; 3]))
  /\ (forall id st extension color callback (v : Value) (k : nat),
        categorySize (opts extension) = Int 1 ->
        (_getCategoryKey st v).2 = Key k ->
        (k < 128)%nat ->
        filter_categoryBitMask
          (draw id st {| onFilteredItemsChange := callback;
                         filterCategoryList := VArray [v; v] |} extension color)
        <> filter_categoryBitMask
             (draw id st {| onFilteredItemsChange := callback;
                            filterCategoryList := VArray [v] |} extension color)).
Proof.
  split.
  - intros id st props extension color groups n Hg.
    rewrite draw_mask. by apply categoryBitMask_sums.
  - intros id st extension color callback v k Hn Hk Hlt.
    rewrite !draw_mask. cbn [filterCategoryList]. rewrite Hn.
    rewrite (categoryBitMask_sums _ _ _ _ (category_groups_flat [v; v])).
    rewrite (categoryBitMask_sums _ _ _ _ (category_groups_flat [v])).
    intros Heq. apply (inj inr) in Heq.
    assert (Hw : 0 <= Z.of_nat k / 32 < 4).
    { split; [apply Z.div_pos; lia | apply Z.div_lt_upper_bound; lia]. }
    apply words_inj with (w := Z.of_nat k / 32) in Heq; [|exact Hw].
    revert Heq. cbn [group_keys getCategoryKeys].
    pose proof (getCategoryKey_again st v) as Hagain. rewrite Hk in Hagain.
    destruct (_getCategoryKey st v) as [st1 r]. cbn [snd fst] in Hk, Hagain. subst r.
    destruct (_getCategoryKey st1 v) as [st2 r2]. cbn [snd] in Hagain. subst r2.
    unfold sum_contributions, total, contribution, channel_of, maxCategories.
    cbn [number_is fmap list_fmap app foldr Z.eqb Pos.eqb Z.of_nat].
    change (0 * (128 / 32)) with 0. rewrite Z.add_0_l, Z.eqb_refl.
    pose proof (addend_bounds k) as Hx.
    set (x := 2 ^ (Z.of_nat k mod 32)) in *.
    rewrite (Z.mod_small (x + 0)) by lia.
    intros Heq.
    pose proof (Z.div_mod (x + (x + 0)) (2 ^ 32) ltac:(lia)) as Hdm.
    pose proof (Z.mod_pos_bound (x + (x + 0)) (2 ^ 32) ltac:(lia)) as Hmb.
    assert (Hq : (x + (x + 0)) / 2 ^ 32 = 0 \/ (x + (x + 0)) / 2 ^ 32 = 1).
    { assert (0 <= (x + (x + 0)) / 2 ^ 32) by (apply Z.div_pos; lia).
      assert ((x + (x + 0)) / 2 ^ 32 < 2) by (apply Z.div_lt_upper_bound; lia).
      lia. }
    destruct Hq as [Hq|Hq]; rewrite Hq in Hdm; lia.
Qed.

(** Key 31 listed twice: the word wraps around to 0. *)
Lemma draw_bitmask_adds_with_multiplicity_witness :
  let st := (getCategoryKeys initial_state (numbered 32)).1 in
  let ext := {| opts := {| categorySize := Int 1; filterSize := Int 1;
                           fp64 := false; countItems := false |} |} in
  filter_categoryBitMask
    (draw "layer" st {| onFilteredItemsChange := None;
                        filterCategoryList := VArray [VNumber 31; VNumber 31] |} ext [])
  <> filter_categoryBitMask
       (draw "layer" st {| onFilteredItemsChange := None;
                           filterCategoryList := VArray [VNumber 31] |} ext []).
Proof.
  intros st ext.
  refine (proj2 draw_bitmask_adds_with_multiplicity "layer" st ext [] None
            (VNumber 31) 31%nat eq_refl _ _).
  - vm_compute. reflexivity.
  - lia.
Defined.

Example mask_of_key_31_twice :
  let st := (getCategoryKeys initial_state (numbered 32)).1 in
  let ext := {| opts := {| categorySize := Int 1; filterSize := Int 1;
                           fp64 := false; countItems := false |} |} in
  filter_categoryBitMask
    (draw "layer" st {| onFilteredItemsChange := None;
                        filterCategoryList := VArray [VNumber 31; VNumber 31] |} ext [])
  = inr [0; 0; 0; 0]
  /\ filter_categoryBitMask
       (draw "layer" st {| onFilteredItemsChange := None;
                           filterCategoryList := VArray [VNumber 31] |} ext [])
     = inr [2147483648; 0; 0; 0].
Proof. split; vm_compute; reflexivity. Qed.

(** A key beyond the words of the mask is dropped: category 128 on a layer
    that has seen 129 categories leaves the mask empty. *)
Example mask_of_key_128 :
  let st := (getCategoryKeys initial_state (numbered 129)).1 in
  let ext := {| opts := {| categorySize := Int 1; filterSize := Int 1;
                           fp64 := false; countItems := false |} |} in
  filter_categoryBitMask
    (draw "layer" st {| onFilteredItemsChange := None;
                        filterCategoryList := VArray [VNumber 128] |} ext [])
  = inr [0; 0; 0; 0].
Proof. vm_compute. reflexivity. Qed.

(* ===================================================================== *)
(** * Shaders and attributes of a constructed extension *)
(* ===================================================================== *)

(** What the constructor lets through: both sizes are channel counts. *)
Lemma constructor_sizes (arg : option PartialOptions) (extension : Extension) :
  DataFilterExtension_constructor arg = inr extension ->
  channel_count (categorySize (opts extension))
  /\ channel_count (filterSize (opts extension)).
Proof.
  unfold DataFilterExtension_constructor.
  set (a := default _ arg).
  destruct (truthy_type (DATA_TYPE_FROM_SIZE (default (Int 1) (categorySize_opt a))))
    eqn:Hc; [|discriminate].
  destruct (truthy_type (DATA_TYPE_FROM_SIZE (default (Int 1) (filterSize_opt a))))
    eqn:Hf; [|discriminate].
  cbn. intros [= <-]. cbn. by rewrite !channel_count_truthy.
Qed.

(** For every extension the constructor returns, [getShaders] defines both
    the category type and the filter type (neither is left undefined):
    [DATACATEGORY_CHANNELS] is the category size the constructor was given
    (1 when left out), [DATACATEGORY_TYPE] the GLSL type with that many
    components, [DATAFILTER_TYPE] the GLSL type with as many components as
    the filter size given (1 when left out); and the 64-bit module is used
    exactly when [fp64] is set. *)
Theorem getShaders_defines_types (arg : option PartialOptions) (extension : Extension) :
  DataFilterExtension_constructor arg = inr extension ->
  let a := default (Build_PartialOptions None None None None) arg in
  let d := defines (getShaders extension) in
  (exists z, default (Int 1) (categorySize_opt a) = Int z
             /\ categorySize (opts extension) = Int z
             /\ 1 <= z <= 4
             /\ DATACATEGORY_CHANNELS d = Int z
             /\ DATACATEGORY_TYPE d
                = Some (if z =? 1 then "float" else "vec" +:+ pretty z))
  /\ (exists z, default (Int 1) (filterSize_opt a) = Int z
                /\ filterSize (opts extension) = Int z
                /\ 1 <= z <= 4
                /\ DATAFILTER_TYPE d
                   = Some (if z =? 1 then "float" else "vec" +:+ pretty z))
  /\ DATAFILTER_DOUBLE d = default false (fp64_opt a)
  /\ modules (getShaders extension)
     = [if default false (fp64_opt a) then shaderModule64 else shaderModule].
Proof.
  intros Hnew a d. destruct (constructor_sizes arg extension Hnew) as [Hc Hf].
  assert (Hopts : opts extension
                  = {| categorySize := default (Int 1) (categorySize_opt a);
                       filterSize := default (Int 1) (filterSize_opt a);
                       fp64 := default false (fp64_opt a);
                       countItems := default false (countItems_opt a) |}).
  { revert Hnew. unfold DataFilterExtension_constructor. fold a.
    destruct (negb _); [discriminate|]. destruct (negb _); [discriminate|].
    intros [= <-]. reflexivity. }
  unfold d, getShaders. rewrite Hopts in Hc, Hf |- *. cbn in Hc, Hf |- *.
  split; [|split; [|split]].
  - destruct Hc as [-> | [-> | [-> | ->]]];
      [exists 1 | exists 2 | exists 3 | exists 4]; repeat split; lia || reflexivity.
  - destruct Hf as [-> | [-> | [-> | ->]]];
      [exists 1 | exists 2 | exists 3 | exists 4]; repeat split; lia || reflexivity.
  - reflexivity.
  - reflexivity.
Qed.

(** Three category channels, one filter channel. *)
Lemma getShaders_defines_types_witness :
  let d := defines (getShaders
             {| opts := {| categorySize := Int 3; filterSize := Int 1;
                           fp64 := true; countItems := false |} |}) in
  DATACATEGORY_CHANNELS d = Int 3
  /\ DATACATEGORY_TYPE d = Some "vec3" /\ DATAFILTER_TYPE d = Some "float".
Proof.
  pose proof (getShaders_defines_types
    (Some {| categorySize_opt := Some (Int 3); filterSize_opt := None;
             fp64_opt := Some true; countItems_opt := None |})
    _ eq_refl) as (Hc & Hf & _).
  destruct Hc as (zc & Ec & _ & _ & Hch & Hc). destruct Hf as (zf & Ef & _ & _ & Hf).
  injection Ec as <-. injection Ef as <-.
  split; [exact Hch | split; [exact Hc | exact Hf]].
Defined.

(** Every attribute [initializeState] adds for an extension the constructor
    returned has between one and four components, and the index attribute
    is added, and the counting model set, exactly when the layer has an
    attribute manager and [countItems] is on; otherwise the state is left
    as it was. *)
Theorem initializeState_attributes (arg : option PartialOptions)
    (extension : Extension) (st : LayerState) (attributeManager useFloatTarget : bool)
    (model : nat) :
  DataFilterExtension_constructor arg = inr extension ->
  let added := (initializeState st attributeManager extension useFloatTarget model).1 in
  let st' := (initializeState st attributeManager extension useFloatTarget model).2 in
  Forall (fun a => channel_count (attribute_size a)) added
  /\ (attribute_name <$> added
      = if attributeManager then
          if countItems (opts extension)
          then ["filterValues"; "filterCategories"; "filterIndices"]
          else ["filterValues"; "filterCategories"]
        else [])
  /\ st' = (if attributeManager && countItems (opts extension)
            then set_filterModel st model else st).
Proof.
  intros Hnew added st'. destruct (constructor_sizes arg extension Hnew) as [Hc Hf].
  unfold added, st', initializeState.
  destruct attributeManager, (countItems (opts extension)); cbn;
    (split; [|split; reflexivity]);
    repeat (apply Forall_cons_2 || apply Forall_nil_2); cbn; try assumption;
    destruct useFloatTarget; unfold channel_count; tauto.
Qed.

Lemma initializeState_attributes_witness :
  attribute_name <$>
    (initializeState initial_state true
       {| opts := {| categorySize := Int 1; filterSize := Int 1;
                     fp64 := false; countItems := true |} |} false 7%nat).1
  = ["filterValues"; "filterCategories"; "filterIndices"].
Proof.
  exact (proj1 (proj2 (initializeState_attributes
           (Some {| categorySize_opt := None; filterSize_opt := None;
                    fp64_opt := None; countItems_opt := Some true |})
           _ initial_state true false 7%nat eq_refl))).
Defined.

(* ===================================================================== *)
(** * The index attribute *)
(* ===================================================================== *)

(** The index the accessor encodes. *)
Lemma filterIndices_accessor_index (useFloatTarget : bool) (i index_ : Z) :
  filterIndices_accessor useFloatTarget (Some {| __source := Some {| index := i |} |}) index_
  = filterIndices_accessor useFloatTarget None i.
Proof. reflexivity. Qed.



(** Two objects in a row never get the same index value, in either
    encoding: the vertex shader tells the vertices of one object from those
    of the next by it. *)
Theorem filterIndices_neighbours_differ (useFloatTarget : bool) (i : Z) :
  0 <= i ->
  filterIndices_accessor useFloatTarget None i
  <> filterIndices_accessor useFloatTarget None (i + 1).
Proof.
  intros Hpos. unfold filterIndices_accessor.
  assert (0 <= i / 255) by (apply Z.div_pos; lia).
  assert (0 <= (i + 1) / 255) by (apply Z.div_pos; lia).
  destruct useFloatTarget; intros Heq; injection Heq as Heq;
    rewrite !Z.rem_mod_nonneg in * by lia;
    Z.to_euclidean_division_equations; lia.
Qed.

Lemma filterIndices_neighbours_differ_witness :
  filterIndices_accessor true None 253 <> filterIndices_accessor true None 254.
Proof. apply (filterIndices_neighbours_differ true 253). lia. Defined.

(** The two-component encoding tells indices apart exactly up to 255 * 255:
    two indices get the same value if and only if they differ by a multiple
    of 65025; the one-component encoding, by a multiple of 255. *)
Theorem filterIndices_collisions (useFloatTarget : bool) (i j : Z) :
  0 <= i -> 0 <= j ->
  filterIndices_accessor useFloatTarget None i
  = filterIndices_accessor useFloatTarget None j
  <-> i mod (if useFloatTarget then 255 else 65025)
      = j mod (if useFloatTarget then 255 else 65025).
Proof.
  intros Hi Hj. unfold filterIndices_accessor.
  assert (0 <= i / 255) by (apply Z.div_pos; lia).
  assert (0 <= j / 255) by (apply Z.div_pos; lia).
  destruct useFloatTarget; rewrite !Z.rem_mod_nonneg by lia.
  - split.
    + intros [= Heq]. Z.to_euclidean_division_equations. lia.
    + intros Heq. f_equal. Z.to_euclidean_division_equations. lia.
  - split.
    + intros [= H1 H2]. Z.to_euclidean_division_equations. lia.
    + intros Heq. f_equal; [|f_equal]; Z.to_euclidean_division_equations; lia.
Qed.

Lemma filterIndices_collisions_witness :
  filterIndices_accessor false None 0 = filterIndices_accessor false None 65025.
Proof.
  apply (proj2 (filterIndices_collisions false 0 65025 ltac:(lia) ltac:(lia))).
  reflexivity.
Defined.

(* ===================================================================== *)
(** * The update flag through updateState and draw *)
(* ===================================================================== *)

Lemma getCategoryKey_filterModel (st : LayerState) (v : Value) :
  filterModel (_getCategoryKey st v).1 = filterModel st
  /\ filterNeedsUpdate (_getCategoryKey st v).1 = filterNeedsUpdate st.
Proof. split; reflexivity. Qed.

Lemma fold_addCategory_frame (M : Z) (c : nat) (cats : list Value) :
  forall (st : LayerState) (mask : list Z),
    let st' := (fold_left (addCategory M c) cats (st, mask)).1 in
    filterModel st' = filterModel st
    /\ filterNeedsUpdate st' = filterNeedsUpdate st
    /\ own_keys st' = own_keys (getCategoryKeys st cats).1.
Proof.
  induction cats as [|v cats IH]; intros st mask; [done|].
  cbn [fold_left getCategoryKeys].
  assert (Hstep : (addCategory M c (st, mask) v).1 = (_getCategoryKey st v).1).
  { unfold addCategory. by destruct (_getCategoryKey st v) as [s [k| |]]. }
  destruct (addCategory M c (st, mask) v) as [st1 mask1]. cbn [fst] in Hstep. subst st1.
  destruct (IH (_getCategoryKey st v).1 mask1) as (Hm & Hu & Hk).
  destruct (_getCategoryKey st v) as [st1 r] eqn:E. cbn [fst] in *.
  destruct (getCategoryKeys st1 cats) as [st2 rs]. cbn [fst] in *.
  pose proof (getCategoryKey_filterModel st v) as [Hm1 Hu1]. rewrite E in Hm1, Hu1.
  cbn [fst] in Hm1, Hu1. repeat split; congruence.
Qed.

Lemma getCategoryKeys_app (a b : list Value) (st : LayerState) :
  getCategoryKeys st (a ++ b)
  = ((getCategoryKeys (getCategoryKeys st a).1 b).1,
     (getCategoryKeys st a).2 ++ (getCategoryKeys (getCategoryKeys st a).1 b).2).
Proof.
  revert st. induction a as [|v a IH]; intros st.
  - cbn. by destruct (getCategoryKeys st b).
  - cbn [app getCategoryKeys]. destruct (_getCategoryKey st v) as [st1 r].
    rewrite IH. destruct (getCategoryKeys st1 a) as [st2 rs]. cbn [fst snd].
    by destruct (getCategoryKeys st2 b).
Qed.

(** The state the group loops leave: flag and model as before, and the
    map that asking for all categories in turn leaves. *)
Lemma addCategoryFilters_frame (M : Z) (categoryFilters : list Value) :
  forall (c : nat) (st : LayerState) (mask : list Z),
    let st' := (addCategoryFilters M c st mask categoryFilters).1 in
    filterModel st' = filterModel st
    /\ filterNeedsUpdate st' = filterNeedsUpdate st.
Proof.
  induction categoryFilters as [|g gs IH]; intros c st mask; [done|].
  cbn [addCategoryFilters]. destruct (iterate g) as [cats|]; [|done].
  destruct (fold_addCategory_frame M c cats st mask) as (Hm & Hu & _).
  destruct (fold_left _ cats _) as [st1 mask1]. cbn [fst] in *.
  destruct (IH (S c) st1 mask1) as [Hm2 Hu2]. split; congruence.
Qed.

Lemma categoryBitMask_frame (n : number) (st : LayerState) (l : Value) :
  filterModel (categoryBitMask n st l).1 = filterModel st
  /\ filterNeedsUpdate (categoryBitMask n st l).1 = filterNeedsUpdate st.
Proof.
  unfold categoryBitMask.
  destruct (if number_is n 1 then Some [l] else indexed l); [|done].
  apply addCategoryFilters_frame.
Qed.

(** What [draw] reports and what it leaves of flag and model. *)
Lemma draw_reports (id : string) (st : LayerState) (props : LayerProps)
    (extension : Extension) (color : list Z) :
  let d := draw id st props extension color in
  let counting :=
    filterNeedsUpdate st && bool_decide (is_Some (onFilteredItemsChange props))
    && bool_decide (is_Some (filterModel st)) in
  filterModel (drawn_state d) = filterModel st
  /\ filterNeedsUpdate (drawn_state d)
     = (if counting then false else filterNeedsUpdate st)
  /\ length (drawn_events d) = (if counting then 1%nat else 0%nat).
Proof.
  unfold draw.
  destruct (filterNeedsUpdate st) eqn:Hu, (onFilteredItemsChange props) as [cb|],
    (filterModel st) as [m|] eqn:Hm; cbn;
    match goal with
    | |- context [categoryBitMask ?n ?s ?l] =>
        pose proof (categoryBitMask_frame n s l) as [H1 H2];
        destruct (categoryBitMask n s l) as [st2 mask]
    end; cbn in *; repeat split; congruence.
Qed.

Lemma updateState_frame_aux (st : LayerState) (changes : Changes) :
  (filterNeedsUpdate st = true -> filterNeedsUpdate (updateState st changes) = true)
  /\ (filterModel st = None -> updateState st changes = st)
  /\ filterModel (updateState st changes) = filterModel st
  /\ categoryMap (updateState st changes) = categoryMap st.
Proof.
  unfold updateState. destruct (filterModel st) as [m|] eqn:Hm.
  - destruct (_ || _); cbn; repeat split; done.
  - repeat split; done.
Qed.

(** [updateState] never clears the update flag: once set, it stays set until
    a [draw] reports; and on a layer without counting model it changes
    nothing at all. *)
Theorem updateState_keeps_flag (st : LayerState) (changes : Changes) :
  (filterNeedsUpdate st = true -> filterNeedsUpdate (updateState st changes) = true)
  /\ (filterModel st = None -> updateState st changes = st)
  /\ filterModel (updateState st changes) = filterModel st
  /\ categoryMap (updateState st changes) = categoryMap st.
Proof. exact (updateState_frame_aux st changes). Qed.

(** A second [draw] with the same props reports nothing, whatever the first
    one did and whatever is read back: one update is reported at most
    once. *)
Theorem draw_reports_once (id : string) (st : LayerState) (props : LayerProps)
    (extension : Extension) (color color' : list Z) :
  let first := draw id st props extension color in
  drawn_events (draw id (drawn_state first) props extension color') = [].
Proof.
  intros first.
  destruct (draw_reports id st props extension color) as (Hm & Hu & _).
  destruct (draw_reports id (drawn_state first) props extension color') as (_ & _ & Hn).
  fold first in Hm, Hu. apply length_zero_iff_nil. rewrite Hn.
  rewrite Hm, Hu.
  destruct (filterNeedsUpdate st), (bool_decide (is_Some (onFilteredItemsChange props))),
    (bool_decide (is_Some (filterModel st))); reflexivity.
Qed.

Lemma lifecycle_without_model (id : string) (extension : Extension)
    (calls : list LayerCall) :
  forall st, filterModel st = None -> (lifecycle id extension st calls).2 = [].
Proof.
  induction calls as [|[changes|props color] calls IH]; intros st Hm; [done| |].
  - cbn [lifecycle]. apply IH.
    by rewrite (proj1 (proj2 (proj2 (updateState_frame_aux st changes)))).
  - cbn [lifecycle].
    destruct (draw_reports id st props extension color) as (Hm' & _ & Hn).
    rewrite Hm in Hm'. specialize (IH _ Hm').
    destruct (lifecycle id extension _ calls) as [st' events]. cbn [snd] in *.
    subst events. rewrite app_nil_r. apply length_zero_iff_nil. rewrite Hn, Hm.
    by rewrite andb_false_r.
Qed.

(** The callbacks of a [draw]. *)
Lemma draw_events (id : string) (st : LayerState) (props : LayerProps)
    (extension : Extension) (color : list Z) :
  drawn_events (draw id st props extension color)
  = match filterNeedsUpdate st, onFilteredItemsChange props, filterModel st with
    | true, Some callback, Some _ =>
        [ {| ev_callback := callback; ev_id := id; ev_count := count_pixels color |} ]
    | _, _, _ => []
    end.
Proof.
  unfold draw.
  destruct (filterNeedsUpdate st), (onFilteredItemsChange props), (filterModel st);
    match goal with |- context [categoryBitMask ?n ?s ?l] =>
      by destruct (categoryBitMask n s l) end.
Qed.

(** Without counting ([countItems] off, or a layer without attribute
    manager) no callback is ever made: after [initializeState] on a layer
    without counting model, whatever calls of [updateState] and [draw]
    follow, with whatever props, [onFilteredItemsChange] is not called. *)
Theorem lifecycle_silent_without_counting (id : string) (extension : Extension)
    (st : LayerState) (attributeManager useFloatTarget : bool) (model : nat)
    (calls : list LayerCall) :
  filterModel st = None ->
  attributeManager && countItems (opts extension) = false ->
  (lifecycle id extension
     (initializeState st attributeManager extension useFloatTarget model).2 calls).2
  = [].
Proof.
  intros Hm Hoff. apply lifecycle_without_model.
  unfold initializeState. by rewrite Hoff.
Qed.

Lemma lifecycle_silent_without_counting_witness :
  (lifecycle "layer"
     {| opts := {| categorySize := Int 1; filterSize := Int 1;
                   fp64 := false; countItems := false |} |}
     (initializeState initial_state true
        {| opts := {| categorySize := Int 1; filterSize := Int 1;
                      fp64 := false; countItems := false |} |} true 4%nat).2
     [ call_updateState (Build_Changes true false false false false true);
       call_draw {| onFilteredItemsChange := Some 1%nat;
                    filterCategoryList := VArray [VString "a"] |} [1; 1] ]).2
  = [].
Proof.
  apply (lifecycle_silent_without_counting "layer" _ initial_state true true 4%nat);
    reflexivity.
Defined.

(** With counting on, an update that changes something, followed by two
    draws with a callback set, is reported exactly once: by the first draw,
    with the id of the layer and the sum of what it read back. *)
Theorem lifecycle_reports_update_once (id : string) (extension : Extension)
    (st : LayerState) (useFloatTarget : bool) (model callback : nat)
    (changes : Changes) (props : LayerProps) (color color' : list Z) :
  countItems (opts extension) = true ->
  onFilteredItemsChange props = Some callback ->
  filterValues_needsUpdate changes || filterCategories_needsUpdate changes
  || filterEnabled_changed changes || filterRange_changed changes
  || filterSoftRange_changed changes || filterCategoryList_changed changes = true ->
  (lifecycle id extension
     (initializeState st true extension useFloatTarget model).2
     [call_updateState changes; call_draw props color; call_draw props color']).2
  = [ {| ev_callback := callback; ev_id := id; ev_count := total color |} ].
Proof.
  intros Hon Hcb Hch. unfold initializeState. rewrite Hon. cbn [andb snd lifecycle].
  unfold updateState. cbn [set_filterModel filterModel]. rewrite Hch.
  set (st1 := set_filterNeedsUpdate _ true).
  pose proof (draw_reports id st1 props extension color) as (Hm & Hu & _).
  pose proof (draw_reports id (drawn_state (draw id st1 props extension color))
                props extension color') as (_ & _ & Hn).
  rewrite Hm, Hu in Hn. rewrite Hcb in Hn. cbn in Hn.
  apply length_zero_iff_nil in Hn. rewrite Hn, app_nil_r.
  subst st1. rewrite draw_events. cbn [set_filterNeedsUpdate filterNeedsUpdate filterModel].
  by rewrite Hcb, count_pixels_total.
Qed.

Lemma lifecycle_reports_update_once_witness :
  (lifecycle "layer"
     {| opts := {| categorySize := Int 1; filterSize := Int 1;
                   fp64 := false; countItems := true |} |}
     (initializeState initial_state true
        {| opts := {| categorySize := Int 1; filterSize := Int 1;
                      fp64 := false; countItems := true |} |} false 4%nat).2
     [ call_updateState (Build_Changes false false false true false false);
       call_draw {| onFilteredItemsChange := Some 1%nat;
                    filterCategoryList := VArray [VString "a"] |} [1; 0; 1; 0];
       call_draw {| onFilteredItemsChange := Some 1%nat;
                    filterCategoryList := VArray [VString "a"] |} [1; 1; 1; 0] ]).2
  = [ {| ev_callback := 1%nat; ev_id := "layer"; ev_count := 2 |} ].
Proof.
  apply (lifecycle_reports_update_once "layer" _ initial_state false 4%nat 1%nat
           (Build_Changes false false false true false false)
           {| onFilteredItemsChange := Some 1%nat;
              filterCategoryList := VArray [VString "a"] |} [1; 0; 1; 0] [1; 1; 1; 0]);
    reflexivity.
Defined.

(* ===================================================================== *)
(** * draw and the category map *)
(* ===================================================================== *)

Lemma addCategoryFilters_keeps (M : Z) (k : string) (categoryFilters : list Value) :
  forall (c : nat) (st : LayerState) (mask : list Z),
    has_property (own_keys st) k = true ->
    let st' := (addCategoryFilters M c st mask categoryFilters).1 in
    has_property (own_keys st') k = true
    /\ get_property (own_keys st') k = get_property (own_keys st) k.
Proof.
  induction categoryFilters as [|g gs IH]; intros c st mask Hin; [done|].
  cbn [addCategoryFilters]. destruct (iterate g) as [cats|]; [|done].
  destruct (fold_addCategory_frame M c cats st mask) as (_ & _ & Hk).
  destruct (getCategoryKeys_keep cats st k Hin) as [Hin1 Hget1].
  destruct (fold_left _ cats _) as [st1 mask1]. cbn [fst] in Hk.
  rewrite <- Hk in Hin1, Hget1.
  destruct (IH (S c) st1 mask1 Hin1) as [Hin2 Hget2]. split; [done|congruence].
Qed.

(** [draw] only ever adds to the category map: a category that has a key
    keeps it through any [draw], whatever is listed; the counting model is
    never touched; and [draw] changes the update flag only by clearing it. *)
Theorem draw_keeps_keys (id : string) (st : LayerState) (props : LayerProps)
    (extension : Extension) (color : list Z) (v : Value) :
  let st' := drawn_state (draw id (_getCategoryKey st v).1 props extension color) in
  (_getCategoryKey st' v).2 = (_getCategoryKey st v).2
  /\ filterModel st' = filterModel st
  /\ (filterNeedsUpdate st' = true -> filterNeedsUpdate st = true).
Proof.
  intros st'. set (st0 := (_getCategoryKey st v).1) in *.
  destruct (draw_reports id st0 props extension color) as (Hm & Hu & _).
  fold st' in Hm, Hu. split; [|split].
  - pose proof (getCategoryKey_has st v) as Hin. fold st0 in Hin.
    assert (Hkeep : has_property (own_keys st') (ToPropertyKey v) = true
                    /\ get_property (own_keys st') (ToPropertyKey v)
                       = get_property (own_keys st0) (ToPropertyKey v)).
    { unfold st', draw.
      destruct (filterNeedsUpdate st0), (onFilteredItemsChange props),
        (filterModel st0);
        match goal with
        | |- context [categoryBitMask ?n ?s ?l] =>
            assert (Hs : has_property (own_keys s) (ToPropertyKey v) = true) by exact Hin;
            change (own_keys st0) with (own_keys s);
            unfold categoryBitMask;
            destruct (if number_is n 1 then Some [l] else indexed l) as [gv|];
            [ pose proof (addCategoryFilters_keeps (maxCategories n) _ gv 0 s
                            Uint32Array_zero4 Hs) as Hk;
              destruct (addCategoryFilters _ 0 s _ gv) as [st2 mask]; exact Hk
            | done ]
        end. }
    destruct Hkeep as [Hin' Hget'].
    rewrite getCategoryKey_known by done. rewrite Hget'.
    symmetry. apply getCategoryKey_returns.
  - rewrite Hm. reflexivity.
  - rewrite Hu. destruct (_ && _); [discriminate|]. done.
Qed.

(* ===================================================================== *)
(** * The keys of a layer that started without a map *)
(* ===================================================================== *)

Lemma dense_empty : dense ∅.
Proof. split; intros *; rewrite lookup_empty; discriminate. Qed.

Lemma dense_step (st : LayerState) (v : Value) :
  dense (own_keys st) -> dense (own_keys (_getCategoryKey st v).1).
Proof.
  intros [Hb Hi]. rewrite getCategoryKey_own_keys.
  destruct (has_property (own_keys st) (ToPropertyKey v)) eqn:Hin; [done|].
  assert (Hnone : own_keys st !! ToPropertyKey v = None).
  { unfold has_property in Hin. apply orb_false_iff in Hin as [Hin _].
    apply bool_decide_eq_false in Hin. by apply eq_None_not_Some. }
  split.
  - intros k n. rewrite map_size_insert_None by done.
    destruct (decide (ToPropertyKey v = k)) as [->|Hne].
    + rewrite lookup_insert_eq. intros [= <-]. lia.
    + rewrite lookup_insert_ne by done. intros H%Hb. lia.
  - intros k1 k2 n.
    destruct (decide (ToPropertyKey v = k1)) as [<-|Hne1],
             (decide (ToPropertyKey v = k2)) as [<-|Hne2];
      rewrite ?lookup_insert_eq, ?lookup_insert_ne by done; try done.
    + intros [= <-] H%Hb. lia.
    + intros H%Hb [= <-]. lia.
    + apply Hi.
Qed.

Lemma dense_run (cs : list Value) :
  forall st, dense (own_keys st) -> dense (own_keys (getCategoryKeys st cs).1).
Proof.
  induction cs as [|c cs IH]; intros st Hd; [done|].
  cbn [getCategoryKeys]. pose proof (dense_step st c Hd) as Hd1.
  destruct (_getCategoryKey st c) as [st1 r]. cbn [fst] in Hd1.
  specialize (IH st1 Hd1). by destruct (getCategoryKeys st1 cs).
Qed.

Lemma dom_run (cs : list Value) :
  forall st,
    dom (own_keys (getCategoryKeys st cs).1)
    ⊆ dom (own_keys st) ∪ list_to_set (ToPropertyKey <$> cs).
Proof.
  induction cs as [|c cs IH]; intros st; [cbn; set_solver|].
  cbn [getCategoryKeys]. pose proof (getCategoryKey_own_keys st c) as Hown.
  destruct (_getCategoryKey st c) as [st1 r]. cbn [fst] in Hown.
  specialize (IH st1). destruct (getCategoryKeys st1 cs) as [st2 rs]. cbn [fst] in *.
  rewrite fmap_cons, list_to_set_cons.
  assert (dom (own_keys st1) ⊆ dom (own_keys st) ∪ {[ToPropertyKey c]}).
  { rewrite Hown. destruct (has_property _ _); [set_solver|].
    rewrite dom_insert. set_solver. }
  set_solver.
Qed.

(** After a sequence of calls, the key of each of its categories is in the
    map (or inherited), and each call returned what the final map reads. *)
Lemma getCategoryKeys_read_final (cs : list Value) :
  forall st,
    let m := own_keys (getCategoryKeys st cs).1 in
    Forall (fun c => has_property m (ToPropertyKey c) = true) cs
    /\ (getCategoryKeys st cs).2
       = (fun c => get_property m (ToPropertyKey c)) <$> cs.
Proof.
  induction cs as [|c cs IH]; intros st; [done|].
  cbn [getCategoryKeys].
  pose proof (getCategoryKey_has st c) as Hin.
  pose proof (getCategoryKey_returns st c) as Hret.
  destruct (_getCategoryKey st c) as [st1 r]. cbn [fst snd] in Hin, Hret.
  destruct (getCategoryKeys_keep cs st1 _ Hin) as [Hin2 Hget2].
  destruct (IH st1) as [Hall Hres].
  destruct (getCategoryKeys st1 cs) as [st2 rs]. cbn [fst snd] in *.
  split; [by constructor|]. rewrite fmap_cons. f_equal; [congruence|done].
Qed.

(** When every category already has a key, a sequence of calls leaves the
    map as it is and returns what it reads. *)
Lemma getCategoryKeys_known (cs : list Value) :
  forall st,
    Forall (fun c => has_property (own_keys st) (ToPropertyKey c) = true) cs ->
    own_keys (getCategoryKeys st cs).1 = own_keys st
    /\ (getCategoryKeys st cs).2
       = (fun c => get_property (own_keys st) (ToPropertyKey c)) <$> cs.
Proof.
  induction cs as [|c cs IH]; intros st Hall; [done|].
  apply Forall_cons in Hall as [Hc Hall].
  cbn [getCategoryKeys].
  pose proof (getCategoryKey_own_keys st c) as Hown. rewrite Hc in Hown.
  pose proof (getCategoryKey_returns st c) as Hret.
  destruct (_getCategoryKey st c) as [st1 r]. cbn [fst snd] in Hown, Hret.
  rewrite <- Hown in Hall. destruct (IH st1 Hall) as [Hk Hres].
  destruct (getCategoryKeys st1 cs) as [st2 rs]. cbn [fst snd] in *.
  split; [congruence|]. rewrite fmap_cons. f_equal; [congruence|].
  by rewrite Hres, Hown.
Qed.

Lemma get_property_Key (m : gmap string nat) (k : string) (n : nat) :
  get_property m k = Key n <-> m !! k = Some n.
Proof.
  unfold get_property. destruct (m !! k) as [n'|].
  - split; intros [= ->]; done.
  - destruct (inherited k); split; discriminate.
Qed.

(** On a layer that started without a category map, two categories are
    given the same key only if they have the same string form: keys tell
    string forms apart. *)
Theorem getCategoryKeys_injective (st : LayerState) (categories : list Value)
    (i j : nat) (ci cj : Value) (n : nat) :
  categoryMap st = None ->
  categories !! i = Some ci ->
  categories !! j = Some cj ->
  (getCategoryKeys st categories).2 !! i = Some (Key n) ->
  (getCategoryKeys st categories).2 !! j = Some (Key n) ->
  ToPropertyKey ci = ToPropertyKey cj.
Proof.
  intros Hnone Hi Hj Hri Hrj.
  assert (Hd : dense (own_keys (getCategoryKeys st categories).1)).
  { apply dense_run. unfold own_keys. rewrite Hnone. exact dense_empty. }
  destruct (getCategoryKeys_read_final categories st) as [_ Hres].
  rewrite Hres, list_lookup_fmap in Hri, Hrj. rewrite Hi in Hri. rewrite Hj in Hrj.
  cbn in Hri, Hrj. injection Hri as Hri. injection Hrj as Hrj.
  apply get_property_Key in Hri, Hrj. exact (proj2 Hd _ _ _ Hri Hrj).
Qed.

Lemma getCategoryKeys_injective_witness :
  ToPropertyKey (VString "7") = ToPropertyKey (VNumber 7).
Proof.
  apply (getCategoryKeys_injective initial_state
           [VString "7"; VString "toString"; VNumber 8; VNumber 7]
           0 3 (VString "7") (VNumber 7) 0);
    reflexivity.
Defined.

(** On a layer that started without a category map, every key returned is
    below the number of distinct string forms asked for: as long as a layer
    sees at most 128 of them, its keys stay within 0..127. *)
Theorem getCategoryKeys_below_distinct (st : LayerState) (categories : list Value)
    (i n : nat) :
  categoryMap st = None ->
  (getCategoryKeys st categories).2 !! i = Some (Key n) ->
  (n < length (remove_dups (ToPropertyKey <$> categories)))%nat.
Proof.
  intros Hnone Hri.
  assert (Hd : dense (own_keys (getCategoryKeys st categories).1)).
  { apply dense_run. unfold own_keys. rewrite Hnone. exact dense_empty. }
  destruct (getCategoryKeys_read_final categories st) as [_ Hres].
  rewrite Hres, list_lookup_fmap in Hri.
  destruct (categories !! i) as [ci|]; [|discriminate].
  cbn in Hri. injection Hri as Hri. apply get_property_Key in Hri.
  apply (proj1 Hd) in Hri.
  pose proof (dom_run categories st) as Hdom.
  unfold own_keys at 2 in Hdom. rewrite Hnone in Hdom. cbn in Hdom.
  rewrite dom_empty_L, union_empty_l_L in Hdom.
  apply subseteq_size in Hdom. rewrite size_dom in Hdom.
  rewrite distinct_count. lia.
Qed.

Lemma getCategoryKeys_below_distinct_witness :
  (2 < length (remove_dups (ToPropertyKey <$>
         [VString "a"; VNumber 1; VString "a"; VString "1"; VBoolean true])))%nat.
Proof.
  apply (getCategoryKeys_below_distinct initial_state
           [VString "a"; VNumber 1; VString "a"; VString "1"; VBoolean true] 4 2);
    reflexivity.
Defined.

(* ===================================================================== *)
(** * draw again: the same mask *)
(* ===================================================================== *)

Lemma fold_addCategory_state (M : Z) (c : nat) (cats : list Value) :
  forall (st : LayerState) (mask : list Z),
    (fold_left (addCategory M c) cats (st, mask)).1 = (getCategoryKeys st cats).1.
Proof.
  induction cats as [|v cats IH]; intros st mask; [done|].
  cbn [fold_left getCategoryKeys].
  assert (Hstep : (addCategory M c (st, mask) v).1 = (_getCategoryKey st v).1).
  { unfold addCategory. by destruct (_getCategoryKey st v) as [s [k| |]]. }
  destruct (addCategory M c (st, mask) v) as [st1 mask1]. cbn [fst] in Hstep. subst st1.
  rewrite IH. destruct (_getCategoryKey st v) as [st1 r]. cbn [fst].
  by destruct (getCategoryKeys st1 cats).
Qed.

Lemma addCategoryFilters_state (M : Z) (categoryFilters : list Value)
    (groups : list (list Value)) :
  mapM iterate categoryFilters = Some groups ->
  forall (c : nat) (st : LayerState) (mask : list Z),
    (addCategoryFilters M c st mask categoryFilters).1
    = (getCategoryKeys st (concat groups)).1.
Proof.
  rewrite mapM_Some. induction 1 as [|g cats gs groups Hg _ IH]; intros c st mask;
    [done|].
  cbn [addCategoryFilters concat]. rewrite Hg.
  pose proof (fold_addCategory_state M c cats st mask) as Hs.
  destruct (fold_left _ cats _) as [st1 mask1]. cbn [fst] in Hs. subst st1.
  rewrite IH, getCategoryKeys_app. reflexivity.
Qed.

Lemma categoryBitMask_state (n : number) (st : LayerState) (l : Value)
    (groups : list (list Value)) :
  category_groups n l = Some groups ->
  (categoryBitMask n st l).1 = (getCategoryKeys st (concat groups)).1.
Proof.
  unfold category_groups, categoryBitMask. intros H.
  destruct (if number_is n 1 then Some [l] else indexed l) as [gv|]; [|discriminate].
  cbn in H. by apply addCategoryFilters_state.
Qed.

(** The keys of the groups are what the map left by all of them reads. *)
Lemma group_keys_reads (groups : list (list Value)) :
  forall (c : nat) (st : LayerState),
    group_keys c st groups
    = group_reads c (own_keys (getCategoryKeys st (concat groups)).1) groups.
Proof.
  induction groups as [|g rest IH]; intros c st; [done|].
  cbn [group_keys group_reads concat]. rewrite getCategoryKeys_app. cbn [fst].
  destruct (getCategoryKeys_read_final g st) as [Hall Hres].
  destruct (getCategoryKeys st g) as [st1 rs]. cbn [fst snd] in *.
  rewrite IH. f_equal. rewrite Hres, <- list_fmap_compose.
  apply Forall_fmap_ext_1. eapply Forall_impl; [exact Hall|].
  intros v Hv. cbn. f_equal.
  by destruct (getCategoryKeys_keep (concat rest) st1 _ Hv) as [_ ->].
Qed.

(** On a map that has all the categories, the keys of the groups are what it
    reads. *)
Lemma group_keys_known (groups : list (list Value)) :
  forall (c : nat) (st : LayerState),
    Forall (fun v => has_property (own_keys st) (ToPropertyKey v) = true)
      (concat groups) ->
    group_keys c st groups = group_reads c (own_keys st) groups.
Proof.
  induction groups as [|g rest IH]; intros c st Hall; [done|].
  cbn [concat] in Hall. apply Forall_app in Hall as [Hg Hrest].
  cbn [group_keys group_reads].
  destruct (getCategoryKeys_known g st Hg) as [Hk Hres].
  destruct (getCategoryKeys st g) as [st1 rs]. cbn [fst snd] in *.
  rewrite IH by (by rewrite Hk). rewrite Hk, Hres, <- list_fmap_compose. done.
Qed.

Lemma own_keys_set_flag (st : LayerState) (b : bool) :
  own_keys (set_filterNeedsUpdate st b) = own_keys st.
Proof. reflexivity. Qed.

(** The map a [draw] that yields a mask leaves: the one all listed
    categories, asked for in turn, leave. *)
Lemma draw_own_keys (id : string) (st : LayerState) (props : LayerProps)
    (extension : Extension) (color : list Z) (groups : list (list Value)) :
  category_groups (categorySize (opts extension)) (filterCategoryList props)
  = Some groups ->
  own_keys (drawn_state (draw id st props extension color))
  = own_keys (getCategoryKeys st (concat groups)).1.
Proof.
  intros Hg. unfold draw.
  destruct (filterNeedsUpdate st), (onFilteredItemsChange props), (filterModel st);
    match goal with
    | |- context [categoryBitMask ?n ?s ?l] =>
        pose proof (categoryBitMask_state n s l groups Hg) as Hs;
        destruct (categoryBitMask n s l) as [st2 mask]; cbn [fst] in Hs; subst st2
    end; cbn [drawn_state]; try reflexivity.
  by rewrite getCategoryKeys_set_flag.
Qed.

(** Drawing again with the same props gives the same bit mask (or throws
    again), whatever the first draw added to the category map; and a draw
    that yielded a mask is followed by draws that leave the map as it is. *)
Theorem draw_again_same_mask (id : string) (st : LayerState) (props : LayerProps)
    (extension : Extension) (color color' : list Z) :
  let first := draw id st props extension color in
  let second := draw id (drawn_state first) props extension color' in
  filter_categoryBitMask second = filter_categoryBitMask first
  /\ (forall mask, filter_categoryBitMask first = inr mask ->
        own_keys (drawn_state second) = own_keys (drawn_state first)).
Proof.
  intros first second. subst first second. rewrite !draw_mask.
  set (n := categorySize (opts extension)). set (l := filterCategoryList props).
  set (st1 := drawn_state (draw id st props extension color)).
  destruct (category_groups n l) as [groups|] eqn:Hg.
  - pose proof (draw_own_keys id st props extension color groups Hg) as Hk1.
    fold st1 in Hk1.
    destruct (getCategoryKeys_read_final (concat groups) st) as [Hall _].
    rewrite <- Hk1 in Hall. split.
    + rewrite !(categoryBitMask_sums _ _ _ _ Hg).
      rewrite (group_keys_known groups 0 st1 Hall), (group_keys_reads groups 0 st).
      by rewrite Hk1.
    + intros mask _. rewrite (draw_own_keys _ _ _ _ _ groups Hg).
      by destruct (getCategoryKeys_known _ _ Hall) as [-> _].
  - rewrite !categoryBitMask_throws by done. split; [done|discriminate].
Qed.

(* ===================================================================== *)
(** * The bits of the mask *)
(* ===================================================================== *)

(** Adding a power of two whose bit is clear sets that bit and no other. *)
Lemma add_pow2_clear (x e b : Z) :
  0 <= e -> 0 <= b -> Z.testbit x e = false ->
  Z.testbit (2 ^ e + x) b = (b =? e) || Z.testbit x b.
Proof.
  intros He Hb Hclear.
  rewrite Z.add_nocarry_lxor.
  - rewrite Z.lxor_spec, Z.pow2_bits_eqb by lia.
    destruct (Z.eqb_spec e b) as [->|Hne].
    + rewrite Z.eqb_refl, Hclear. reflexivity.
    + destruct (Z.eqb_spec b e); [lia|]. reflexivity.
  - apply Z.bits_inj'. intros n Hn.
    rewrite Z.land_spec, Z.pow2_bits_eqb, Z.bits_0 by lia.
    destruct (Z.eqb_spec e n) as [<-|]; [by rewrite Hclear|done].
Qed.

Lemma elem_of_bit_positions (M : Z) (occ : list (nat * Property)) (w b : Z) :
  (w, b) ∈ bit_positions M occ
  <-> exists c k, (c, Key k) ∈ occ /\ channel_of M c k = w /\ Z.of_nat k mod 32 = b.
Proof.
  unfold bit_positions. rewrite list_elem_of_omap. split.
  - intros ([c [k| |]] & Hin & Heq); try discriminate.
    injection Heq as <- <-. eauto.
  - intros (c & k & Hin & <- & <-). exists (c, Key k). done.
Qed.

(** With no bit listed twice, the sum a word holds has exactly the listed
    bits of that word. *)
Lemma sum_contributions_bits (M w : Z) (occ : list (nat * Property)) :
  NoDup (bit_positions M occ) ->
  forall b, 0 <= b ->
    Z.testbit (sum_contributions M w occ) b
    = bool_decide ((w, b) ∈ bit_positions M occ).
Proof.
  unfold sum_contributions, total.
  induction occ as [|[c r] occ IH]; intros Hnd b Hb.
  - cbn. rewrite Z.bits_0. symmetry. apply bool_decide_eq_false. apply not_elem_of_nil.
  - rewrite fmap_cons. cbn [foldr].
    destruct r as [k| |]; cbn [contribution bit_positions omap list_omap] in *;
      fold (bit_positions M occ) in *;
      [|rewrite Z.add_0_l; apply IH; (done || lia)..].
    apply NoDup_cons in Hnd as [Hnin Hnd].
    pose proof (Z.mod_pos_bound (Z.of_nat k) 32 ltac:(lia)) as Hk.
    destruct (Z.eqb_spec (channel_of M c k) w) as [Heq|Hne].
    + rewrite Heq in Hnin |- *. rewrite add_pow2_clear; [| lia | lia |].
      * rewrite IH by (done || lia).
        destruct (Z.eqb_spec b (Z.of_nat k mod 32)) as [->|Hbe]; cbn [orb].
        -- symmetry. apply bool_decide_eq_true. left.
        -- apply bool_decide_ext. rewrite elem_of_cons. split; [tauto|].
           intros [[= ?]|?]; [lia|done].
      * rewrite IH by (done || lia). by apply bool_decide_eq_false.
    + rewrite Z.add_0_l, IH by (done || lia).
      apply bool_decide_ext. rewrite elem_of_cons. split; [tauto|].
      intros [[= ? ?]|?]; [lia|done].
Qed.

Lemma words_lookup_total (f : Z -> Z) (w : nat) :
  (w < 4)%nat -> words f !!! w = f (Z.of_nat w) mod 2 ^ 32.
Proof.
  intros Hw. destruct w as [|[|[|[|w]]]]; [reflexivity..|lia].
Qed.

(** When no bit is listed twice, the mask is the set of the listed keys:
    bit [b] of word [w] is set if and only if some listed category, in
    some group [c], has a key [k] with word [c * (maxCategories / 32) +
    floor(k / 32)] equal to [w] and [k mod 32] equal to [b]. *)
Theorem draw_mask_bits (id : string) (st : LayerState) (props : LayerProps)
    (extension : Extension) (color : list Z) (groups : list (list Value)) :
  let n := categorySize (opts extension) in
  let occurrences := group_keys 0 st groups in
  category_groups n (filterCategoryList props) = Some groups ->
  NoDup (bit_positions (maxCategories n) occurrences) ->
  exists mask : list Z,
    filter_categoryBitMask (draw id st props extension color) = inr mask
    /\ forall w b : nat, (w < 4)%nat -> (b < 32)%nat ->
         Z.testbit (mask !!! w) (Z.of_nat b) = true
         <-> exists (c k : nat),
               (c, Key k) ∈ occurrences
               /\ Z.of_nat c * (maxCategories n / 32) + Z.of_nat k / 32 = Z.of_nat w
               /\ Z.of_nat k mod 32 = Z.of_nat b.
Proof.
  intros n occurrences Hg Hnd. eexists. split.
  - rewrite draw_mask. apply (categoryBitMask_sums _ _ _ _ Hg).
  - intros w b Hw Hb. fold occurrences.
    rewrite words_lookup_total by done.
    rewrite Z.mod_pow2_bits_low by lia.
    rewrite sum_contributions_bits by (done || lia).
    rewrite bool_decide_eq_true. apply elem_of_bit_positions.
Qed.

(** Three categories listed on a fresh layer: bits 0, 1 and 2 of word 0. *)
Lemma draw_mask_bits_witness :
  let ext := {| opts := {| categorySize := Int 1; filterSize := Int 1;
                           fp64 := false; countItems := false |} |} in
  let props := {| onFilteredItemsChange := None;
                  filterCategoryList := VArray [VString "a"; VNumber 1; VNull] |} in
  exists mask : list Z,
    filter_categoryBitMask (draw "layer" initial_state props ext []) = inr mask
    /\ forall w b : nat, (w < 4)%nat -> (b < 32)%nat ->
         Z.testbit (mask !!! w) (Z.of_nat b) = true
         <-> exists (c k : nat),
               (c, Key k) ∈ group_keys 0 initial_state [[VString "a"; VNumber 1; VNull]]
               /\ Z.of_nat c * (maxCategories (categorySize (opts ext)) / 32)
                  + Z.of_nat k / 32 = Z.of_nat w
               /\ Z.of_nat k mod 32 = Z.of_nat b.
Proof.
  intros ext props.
  refine (draw_mask_bits "layer" initial_state props ext []
            [[VString "a"; VNumber 1; VNull]] eq_refl _).
  vm_compute. repeat constructor; set_solver.
Defined.

(** A key at or beyond [maxCategories] is not kept out of the mask: in group
    [c] the key [k + maxCategories] sets the very bit that key [k] sets in
    group [c + 1]. *)
Theorem draw_mask_spills_into_next_group (id : string) (st st' : LayerState)
    (props props' : LayerProps) (extension : Extension) (color color' : list Z)
    (c : nat) (v v' : Value) (k : nat) :
  let n := categorySize (opts extension) in
  category_groups n (filterCategoryList props) = Some (only_in_group c v) ->
  category_groups n (filterCategoryList props') = Some (only_in_group (S c) v') ->
  (_getCategoryKey st v).2 = Key (k + Z.to_nat (maxCategories n)) ->
  (_getCategoryKey st' v').2 = Key k ->
  0 <= channel_of (maxCategories n) (S c) k < 4 ->
  filter_categoryBitMask (draw id st props extension color)
  = filter_categoryBitMask (draw id st' props' extension color').
Proof.
  intros n Hg Hg' Hk Hk' Hw.
  assert (HM : exists q, maxCategories n = 32 * q /\ 0 < q).
  { unfold maxCategories. destruct (number_is n 1); [exists 4; lia|].
    destruct (number_is n 2); [exists 2; lia | exists 1; lia]. }
  destruct HM as (q & HM & Hq).
  assert (Hch : channel_of (maxCategories n) c (k + Z.to_nat (maxCategories n))
                = channel_of (maxCategories n) (S c) k).
  { unfold channel_of. rewrite Nat2Z.inj_add, Z2Nat.id, HM by lia.
    replace (32 * q / 32) with q by (rewrite Z.mul_comm, Z.div_mul; lia).
    replace (Z.of_nat k + 32 * q) with (Z.of_nat k + q * 32) by lia.
    rewrite Z.div_add by lia. lia. }
  assert (Hbit : Z.of_nat (k + Z.to_nat (maxCategories n)) mod 32 = Z.of_nat k mod 32).
  { rewrite Nat2Z.inj_add, Z2Nat.id, HM by lia.
    replace (Z.of_nat k + 32 * q) with (Z.of_nat k + q * 32) by lia.
    apply Z.mod_add. lia. }
  rewrite (draw_mask_single _ _ _ _ _ _ _ _ Hg Hk) by (fold n; rewrite Hch; exact Hw).
  rewrite (draw_mask_single _ _ _ _ _ _ _ _ Hg' Hk') by exact Hw.
  fold n. by rewrite Hch, Hbit.
Qed.

(** Two channels: key 64 listed for the first is key 0 listed for the
    second. *)
Lemma draw_mask_spills_into_next_group_witness :
  let st := (getCategoryKeys initial_state (numbered 65)).1 in
  let ext := {| opts := {| categorySize := Int 2; filterSize := Int 1;
                           fp64 := false; countItems := false |} |} in
  filter_categoryBitMask
    (draw "layer" st {| onFilteredItemsChange := None;
                        filterCategoryList := VArray [VArray [VNumber 64]] |} ext [])
  = filter_categoryBitMask
      (draw "layer" st {| onFilteredItemsChange := None;
                          filterCategoryList := VArray [VArray []; VArray [VNumber 0]] |}
         ext []).
Proof.
  intros st ext.
  refine (draw_mask_spills_into_next_group "layer" st st
            {| onFilteredItemsChange := None;
               filterCategoryList := VArray [VArray [VNumber 64]] |}
            {| onFilteredItemsChange := None;
               filterCategoryList := VArray [VArray []; VArray [VNumber 0]] |}
            ext [] [] 0 (VNumber 64) (VNumber 0) 0 eq_refl eq_refl _ _ _);
    vm_compute; [reflexivity | reflexivity | split; [discriminate | reflexivity]].
Defined.

(** [draw] throws exactly when the category list, or with several channels
    one of its groups, cannot be gone through, and then it is a TypeError:
    with one channel an array never throws, with several an array that holds
    a number, a boolean, [null] or [undefined] always does. *)
Theorem draw_throws (id : string) (st : LayerState) (props : LayerProps)
    (extension : Extension) (color : list Z) :
  let n := categorySize (opts extension) in
  let mask := filter_categoryBitMask (draw id st props extension color) in
  (forall e, mask = inl e ->
     e = TypeError /\ category_groups n (filterCategoryList props) = None)
  /\ (category_groups n (filterCategoryList props) = None -> mask = inl TypeError)
  /\ (forall l, n = Int 1 -> filterCategoryList props = VArray l ->
        exists m, mask = inr m)
  /\ (forall l x, number_is n 1 = false -> filterCategoryList props = VArray l ->
        x ∈ l -> iterate x = None -> mask = inl TypeError).
Proof.
  intros n mask. subst mask. rewrite draw_mask. fold n.
  split; [|split; [|split]].
  - intros e He. destruct (category_groups n _) as [groups|] eqn:Hg.
    + rewrite (categoryBitMask_sums _ _ _ _ Hg) in He. discriminate.
    + rewrite categoryBitMask_throws in He by done. split; congruence.
  - apply categoryBitMask_throws.
  - intros l -> ->. rewrite (categoryBitMask_sums _ _ _ _ (category_groups_flat l)).
    eauto.
  - intros l x Hn -> Hx Hnone. apply categoryBitMask_throws.
    unfold category_groups. rewrite Hn. cbn.
    destruct (mapM iterate l) as [gs|] eqn:Hm; [|done].
    apply mapM_Some in Hm. apply list_elem_of_lookup in Hx as [i Hi].
    destruct (Forall2_lookup_l _ _ _ _ _ Hm Hi) as (y & _ & Hy). congruence.
Qed.

(* ===================================================================== *)
(** * The widget over its life *)
(* ===================================================================== *)

Section WidgetLife.
Import FullscreenWidget.

(** Once the promise of a click is fulfilled, [isFullscreen] says whether
    the click asked to enter fullscreen (no fullscreen element was active);
    if the promise is rejected the widget is as before; and nothing but
    [isFullscreen] ever changes. *)
Theorem click_settles (doc : Document) (w : Widget) (fulfilled : bool) :
  let w' := settle w (handleClick doc w) fulfilled in
  isFullscreen w'
  = (if fulfilled then bool_decide (fullscreenElement doc = None) else isFullscreen w)
  /\ (fulfilled = false -> w' = w)
  /\ (id w', props w', placement w', viewId w', deck w', element w')
     = (id w, props w, placement w, viewId w, deck w, element w).
Proof.
  unfold settle, handleClick.
  destruct fulfilled, (fullscreenElement doc) as [e|]; cbn; repeat split; done.
Qed.

(** A click on a widget that holds no deck (never added, or removed) asks no
    element for fullscreen; still, once its promise is fulfilled the widget
    says it is fullscreen. *)
Theorem click_without_deck (doc : Document) (w : Widget) :
  fullscreenElement doc = None ->
  let w' := onRemove w in
  calls (handleClick doc w') = [this_requestFullscreen]
  /\ isFullscreen (settle w' (handleClick doc w') true) = true.
Proof.
  intros Hnone w'. unfold handleClick. rewrite Hnone. split; reflexivity.
Qed.

Lemma click_without_deck_witness :
  let w := fst (onAdd (constructor (Build_FullscreenWidgetProps "w" None None None))
                  {| canvas := Some {| parentElement := Some {| element_handle := 3 |} |} |}
                  {| element_handle := 8 |}) in
  calls (handleClick {| fullscreenElement := None |} (onRemove w))
  = [this_requestFullscreen]
  /\ isFullscreen (settle (onRemove w)
                     (handleClick {| fullscreenElement := None |} (onRemove w)) true)
     = true.
Proof.
  intros w. apply (click_without_deck {| fullscreenElement := None |} w). reflexivity.
Defined.

(** Adding and removing a widget that held no host leaves it as it was, and
    a widget just constructed holds none; while added, it holds the deck it
    was given and the element it returned. *)
Theorem onAdd_onRemove (p : FullscreenWidgetProps) (d : Deck) (e : Element) :
  let w := constructor p in
  onRemove (onAdd w d e).1 = w
  /\ deck (onAdd w d e).1 = Some d
  /\ element (onAdd w d e).1 = Some (onAdd w d e).2
  /\ (onAdd w d e).2 = e.
Proof. repeat split. Qed.

(** [setProps] changes the props the widget keeps and nothing else: [id],
    [viewId], [placement], [isFullscreen], [deck] and [element] of the
    widget are as before.  In the props, [id] becomes the new one; every
    other key takes the new value when the new props have the key, and keeps
    its value when they do not.  So after the constructor, [id], [viewId]
    and [placement] stay what it made of the first props, whatever the new
    ones say, and a label is always there. *)
Theorem setProps_keeps_derived (w : Widget) (u : AssignedProps) :
  let w' := setProps w u in
  (id w', viewId w', placement w', isFullscreen w', deck w', element w')
  = (id w, viewId w, placement w, isFullscreen w, deck w, element w)
  /\ props_id (props w') = assigned_id u
  /\ (assigned_viewId u = None -> props_viewId (props w') = props_viewId (props w))
  /\ (forall x, assigned_viewId u = Some x -> props_viewId (props w') = x)
  /\ (assigned_placement u = None ->
        props_placement (props w') = props_placement (props w))
  /\ (forall x, assigned_placement u = Some x -> props_placement (props w') = x)
  /\ (assigned_label u = None -> props_label (props w') = props_label (props w))
  /\ (forall x, assigned_label u = Some x -> props_label (props w') = x)
  /\ (forall p, w = constructor p ->
        id w' = (if String.eqb (props_id p) "" then "fullscreen" else props_id p)
        /\ placement w' = or_string (props_placement p) "top-left"
        /\ viewId w' = or_null (props_viewId p)
        /\ (assigned_viewId u = None -> props_viewId (props w') = props_viewId p)
        /\ (assigned_placement u = None ->
              props_placement (props w') = props_placement p)
        /\ (assigned_label u = None ->
              exists l, props_label (props w') = Some l /\ l <> "")).
Proof.
  cbn. split; [reflexivity|]. split; [reflexivity|].
  do 6 (split; [first [by intros -> | by intros x ->]|]).
  intros p0 ->. cbn. do 3 (split; [reflexivity|]).
  do 2 (split; [by intros ->|]).
  intros ->. cbn. unfold or_string.
  destruct (props_label p0) as [l|]; [|by eexists].
  destruct (String.eqb_spec l ""); by eexists.
Qed.

Example setProps_after_onAdd :
  let w := fst (onAdd (constructor (Build_FullscreenWidgetProps "fs" (Some "main") None None))
                  {| canvas := None |} {| element_handle := 1 |}) in
  let w' := setProps w {| assigned_id := "other"; assigned_viewId := Some None;
                          assigned_placement := Some (Some "top-right");
                          assigned_label := None |} in
  (id w', viewId w', placement w', deck w', element w')
  = ("fs", Some "main", "top-left", Some {| canvas := None |}, Some {| element_handle := 1 |})
  /\ props w' = {| props_id := "other"; props_viewId := None;
                   props_placement := Some "top-right";
                   props_label := Some "Toggle Fullscreen" |}.
Proof. split; reflexivity. Qed.

End WidgetLife.

(* ===================================================================== *)
(** * The url parameters, key by key *)
(* ===================================================================== *)

(** The url parameters hold [name], always, with the table name; [columns]
    whenever columns are given, also for an empty list (then as the empty
    string), joined with commas; [geo_column] when the geometry column is
    given and not empty; and no other key. *)
Theorem urlParameters_keys {BaseOptions : Type}
    (options : Carto.CartoVectorTableSourceOptions BaseOptions) (k : string) :
  Carto.urlParameters options !! k
  = if decide (k = "name") then Some (Carto.tableName options)
    else if decide (k = "columns") then
      String.concat "," <$> Carto.columns options
    else if decide (k = "geo_column") then
      match Carto.spatialDataColumn options with
      | Some g => if String.eqb g "" then None else Some g
      | None => None
      end
    else None.
Proof.
  unfold Carto.urlParameters.
  destruct (Carto.columns options) as [cols|],
    (Carto.spatialDataColumn options) as [g|];
    try destruct (String.eqb g "");
    repeat case_decide; subst; by simplify_map_eq.
Qed.

Example table_with_no_columns_listed :
  Carto.urlParameters
    {| Carto.base := tt; Carto.tableName := "t1"; Carto.columns := Some [];
       Carto.spatialDataColumn := None |}
  = {[ "columns" := ""; "name" := "t1" ]}.
Proof. reflexivity. Qed.
